(** * OCI block volume provisioner: sizing, tag resolution, Provision, Delete

    A shallow embedding of [pkg/provisioner/block/block.go].

    - Go [int64] values are integers of [Z] with the two's-complement
      wrap-around written out ([Int64.wrap64]); [int] is the 64-bit [int]
      of the platforms the provisioner is built for, so [int(x)] is the
      identity.
    - Go strings are byte strings: [string] of the standard library.
    - Go maps are finite maps ([gmap]); reading an absent key of a
      [map[string]string] yields the empty string.  A [range] over a map
      visits each key once, in an order Go leaves unspecified; it is
      rendered with [map_fold].
    - [*string] fields of the SDK structures ([ad.Name], [newVolume.Id])
      are taken to be set, and are plain strings here.
    - The cloud client and the metadata service are collaborators, given as
      records of functions; every remote call is appended to a trace.
    - [resource.Quantity] belongs to the Kubernetes API machinery; the two
      methods used by the provisioner form the interface [QuantityOps].
    - The verb [%q] is [strconv.Quote], written out with its UTF-8 decoding
      and escapes; the one part taken from the Go library as a parameter is
      the table of printable runes above U+00FF ([UnicodeTables]).
    - [glog] calls and the deadline of [context.WithTimeout] do not
      influence the control flow of this file and are left out. *)

From Stdlib Require Import ZArith Ascii String List Bool Lia.
From stdpp Require Import base option list strings gmap fin_maps.


Local Open Scope Z_scope.

(** ** Machine integers *)

Module Int64.

Definition modulus : Z := 2 ^ 64.
Definition max_int64 : Z := 2 ^ 63 - 1.
Definition min_int64 : Z := - 2 ^ 63.

(** Reduction of a mathematical integer to the [int64] it is stored as. *)
Definition wrap64 (z : Z) : Z := (z + 2 ^ 63) mod modulus - 2 ^ 63.

Definition in_range (z : Z) : Prop := min_int64 <= z <= max_int64.

Definition add (a b : Z) : Z := wrap64 (a + b).
Definition sub (a b : Z) : Z := wrap64 (a - b).

(** Go's [/] on integers truncates towards zero and panics on a zero
    divisor ([None]); [min_int64 / -1] wraps. *)
Definition div (a b : Z) : option Z :=
  if b =? 0 then None else Some (wrap64 (Z.quot a b)).

End Int64.

(** ** The parts of Go's [strings], [strconv] and [fmt] that the file uses *)

Module GoStrings.

(** [strings.Split(s, sep)] for a separator of one byte, which is what
    every call site passes: the pieces between the occurrences of [sep],
    one more than there are occurrences. *)
Fixpoint Split (s : string) (sep : ascii) : list string :=
  match s with
  | EmptyString => [EmptyString]
  | String c rest =>
      if Ascii.eqb c sep then EmptyString :: Split rest sep
      else match Split rest sep with
           | piece :: pieces => String c piece :: pieces
           | [] => [String c EmptyString]
           end
  end.

(** [strings.Count(s, sep)] for a separator of one byte. *)
Fixpoint Count (s : string) (sep : ascii) : nat :=
  match s with
  | EmptyString => O
  | String c rest => ((if Ascii.eqb c sep then 1 else 0) + Count rest sep)%nat
  end.

(** [strings.HasSuffix]. *)
Definition HasSuffix (s suffix : string) : bool :=
  String.prefix (String.rev suffix) (String.rev s).

Fixpoint trimLeft (s : string) : string :=
  match s with
  | String c rest => if Ascii.is_space c then trimLeft rest else s
  | EmptyString => EmptyString
  end.

(** [strings.TrimSpace] on ASCII input: the white space of Go's
    [asciiSpace] table (tab, newline, vertical tab, form feed, carriage
    return, space) is removed at both ends. *)
Definition TrimSpace (s : string) : string :=
  String.rev (trimLeft (String.rev (trimLeft s))).

Definition lowerhex (n : N) : ascii :=
  match String.get (N.to_nat n) "0123456789abcdef" with
  | Some c => c
  | None => "0"%char
  end.

Definition dquote : ascii := "034"%char.
Definition backslash : ascii := "092"%char.

(** [n] hexadecimal digits of [r], the most significant first. *)
Fixpoint hexDigits (n : nat) (r : N) : string :=
  match n with
  | O => EmptyString
  | S k =>
      String (lowerhex (N.land (N.shiftr r (4 * N.of_nat k)) 15)) (hexDigits k r)
  end.

Definition inRange (lo hi : N) (c : ascii) : bool :=
  (lo <=? N_of_ascii c)%N && (N_of_ascii c <=? hi)%N.

(** The six payload bits of a continuation byte. *)
Definition continuationBits (c : ascii) : N := N.land (N_of_ascii c) 63.

(** [utf8.DecodeRuneInString] on the non-empty string [String b0 rest]: the
    rune and the bytes of its encoding, or [None] where Go answers
    [(RuneError, 1)]: a byte that starts no encoding, an encoding cut short,
    a continuation byte out of range (which also excludes over-long forms,
    surrogates and values above U+10FFFF). *)
Definition DecodeRuneInString (b0 : ascii) (rest : string) : option (N * string) :=
  let n0 := N_of_ascii b0 in
  if (n0 <? 128)%N then Some (n0, String b0 EmptyString)
  else if (194 <=? n0)%N && (n0 <=? 223)%N then
    match rest with
    | String b1 _ =>
        if inRange 128 191 b1
        then Some (N.lor (N.shiftl (N.land n0 31) 6) (continuationBits b1),
                   String b0 (String b1 EmptyString))
        else None
    | _ => None
    end
  else if (224 <=? n0)%N && (n0 <=? 239)%N then
    match rest with
    | String b1 (String b2 _) =>
        if inRange (if (n0 =? 224)%N then 160 else 128)
                   (if (n0 =? 237)%N then 159 else 191) b1
           && inRange 128 191 b2
        then Some (N.lor (N.shiftl (N.land n0 15) 12)
                     (N.lor (N.shiftl (continuationBits b1) 6)
                        (continuationBits b2)),
                   String b0 (String b1 (String b2 EmptyString)))
        else None
    | _ => None
    end
  else if (240 <=? n0)%N && (n0 <=? 244)%N then
    match rest with
    | String b1 (String b2 (String b3 _)) =>
        if inRange (if (n0 =? 240)%N then 144 else 128)
                   (if (n0 =? 244)%N then 143 else 191) b1
           && inRange 128 191 b2 && inRange 128 191 b3
        then Some (N.lor (N.shiftl (N.land n0 7) 18)
                     (N.lor (N.shiftl (continuationBits b1) 12)
                        (N.lor (N.shiftl (continuationBits b2) 6)
                           (continuationBits b3))),
                   String b0 (String b1 (String b2 (String b3 EmptyString))))
        else None
    | _ => None
    end
  else None.

(** [strconv.IsPrint]: decided in the code for the runes up to U+00FF, and
    by Go's table of printable runes, the parameter [wide], above. *)
Definition IsPrint (wide : N -> bool) (r : N) : bool :=
  if (r <=? 255)%N then
    if (32 <=? r)%N && (r <=? 126)%N then true
    else if (161 <=? r)%N && (r <=? 255)%N then negb (r =? 173)%N
    else false
  else wide r.

(** [utf8.ValidRune]. *)
Definition ValidRune (r : N) : bool :=
  (r <? 55296)%N || ((57343 <? r)%N && (r <=? 1114111)%N).

(** [appendEscapedRune] as [strconv.Quote] calls it, for the rune [r]
    decoded from [bytes]. A printable rune is written by
    [utf8.AppendRune], which gives back the bytes it was decoded from. The
    rune U+007F is written [\x7f], as Go does since version 1.19. *)
Definition appendEscapedRune (wide : N -> bool) (r : N) (bytes : string) : string :=
  if (r =? 34)%N || (r =? 92)%N then
    String backslash (String (ascii_of_N r) EmptyString)
  else if IsPrint wide r then bytes
  else if (r =? 7)%N then String backslash "a"
  else if (r =? 8)%N then String backslash "b"
  else if (r =? 12)%N then String backslash "f"
  else if (r =? 10)%N then String backslash "n"
  else if (r =? 13)%N then String backslash "r"
  else if (r =? 9)%N then String backslash "t"
  else if (r =? 11)%N then String backslash "v"
  else if (r <? 32)%N || (r =? 127)%N then
    String backslash (String "x" (hexDigits 2 r))
  else if negb (ValidRune r) then
    String backslash (String "u" (hexDigits 4 65533))
  else if (r <? 65536)%N then String backslash (String "u" (hexDigits 4 r))
  else String backslash (String "U" (hexDigits 8 r)).

(** The loop of [strconv.Quote] over the runes of [s]; [skip] counts the
    bytes of [s] that belong to the rune written last. *)
Fixpoint quoteFrom (wide : N -> bool) (skip : nat) (s : string) : string :=
  match s with
  | EmptyString => EmptyString
  | String b rest =>
      match skip with
      | S skip' => quoteFrom wide skip' rest
      | O =>
          match DecodeRuneInString b rest with
          | None =>
              String backslash (String "x" (hexDigits 2 (N_of_ascii b)))
              +:+ quoteFrom wide 0 rest
          | Some (r, bytes) =>
              appendEscapedRune wide r bytes
              +:+ quoteFrom wide (String.length bytes - 1) rest
          end
      end
  end.

(** [strconv.Quote], the rendering of the verb [%q]. *)
Definition Quote (wide : N -> bool) (s : string) : string :=
  String dquote (quoteFrom wide 0 s +:+ String dquote EmptyString).

(** The strings that [strconv.Quote] copies between the quotes as they are:
    valid UTF-8 whose runes are printable and are neither the double quote
    nor the backslash. *)
Fixpoint keptFrom (wide : N -> bool) (skip : nat) (s : string) : bool :=
  match s with
  | EmptyString => true
  | String b rest =>
      match skip with
      | S skip' => keptFrom wide skip' rest
      | O =>
          match DecodeRuneInString b rest with
          | None => false
          | Some (r, bytes) =>
              negb ((r =? 34)%N || (r =? 92)%N) && IsPrint wide r
              && keptFrom wide (String.length bytes - 1) rest
          end
      end
  end.

(** [s] without its first [n] bytes. *)
Fixpoint dropBytes (n : nat) (s : string) : string :=
  match n, s with
  | S k, String _ rest => dropBytes k rest
  | _, _ => s
  end.

(** [strings.Contains]. *)
Fixpoint Contains (s substr : string) : bool :=
  String.prefix substr s ||
  match s with
  | EmptyString => false
  | String _ rest => Contains rest substr
  end.

End GoStrings.

(** ** Errors, results and the trace of remote calls *)

(** An [error] value is either built by this package ([errors.New],
    [fmt.Errorf]) or handed back by a collaborator. [errorQuoted text
    operand] is [fmt.Errorf] on a format made of [text] and a final [%q]:
    its message is [text] followed by [operand] as [%q] renders it, which is
    written out by [errorMessage]. *)
Inductive error : Type :=
  | errorString (msg : string)
  | collaboratorError (payload : string)
  | errorQuoted (text operand : string).

Global Instance error_eq_dec : EqDecision error.
Proof. solve_decision. Defined.

(** Go's table of the printable runes above U+00FF, which [strconv.IsPrint]
    consults; it belongs to the Go library. *)
Class UnicodeTables : Type := { isPrintWide : N -> bool }.

(** The message of an error. *)
Definition errorMessage `{UnicodeTables} (e : error) : string :=
  match e with
  | errorString msg => msg
  | collaboratorError payload => payload
  | errorQuoted text operand => text +:+ GoStrings.Quote isPrintWide operand
  end.

(** The pieces that [%q] leaves as they are. *)
Definition keptByQuote `{UnicodeTables} (s : string) : bool :=
  GoStrings.keptFrom isPrintWide 0 s.

(** The ways a Go function can end: a value, a non-nil [error], a panic. *)
Inductive Result (A : Type) : Type :=
  | Ok (a : A)
  | Err (e : error)
  | Panic (msg : string).
Arguments Ok {A} a.
Arguments Err {A} e.
Arguments Panic {A} msg.

Global Instance Result_ret : MRet Result := fun _ a => Ok a.
Global Instance Result_bind : MBind Result := fun _ _ k m =>
  match m with
  | Ok a => k a
  | Err e => Err e
  | Panic msg => Panic msg
  end.

(** An integer division whose divisor is zero panics. *)
Definition checked (q : option Z) : Result Z :=
  match q with
  | Some z => Ok z
  | None => Panic "runtime error: integer divide by zero"
  end.

Abbreviation FreeformTags := (gmap string string).
Abbreviation DefinedTags := (gmap string (gmap string string)).

(** [core.CreateVolumeDetails]; [SourceDetails] holds the backup
    identifier of a [VolumeSourceFromVolumeBackupDetails]. *)
Record CreateVolumeDetails : Type := {
  AvailabilityDomain : string;
  CompartmentId : string;
  DisplayName : string;
  SizeInMBs : Z;
  DefinedTagsOf : DefinedTags;
  FreeformTagsOf : FreeformTags;
  SourceDetails : option string
}.

Record CreateVolumeResponse : Type := { Volume_Id : string }.

Record HttpResponse : Type := { StatusCode : Z }.

(** [core.DeleteVolumeResponse]: [RawResponse] may be nil. *)
Record DeleteVolumeResponse : Type := { RawResponse : option HttpResponse }.

Record InstanceMetadata : Type := { Region : string }.

Inductive CloudCall : Type :=
  | CreateVolumeCall (details : CreateVolumeDetails)
  | DeleteVolumeCall (volumeId : string)
  | MetadataGetCall.

(** [client.ProvisionerClient], as far as this file uses it. A remote
    operation answers as a function of its request and of the calls made so
    far; like in Go it returns a response together with an [error] that may
    be nil. *)
Record ProvisionerClient : Type := {
  CompartmentOCID : string;
  CreateVolume :
    list CloudCall -> CreateVolumeDetails -> CreateVolumeResponse * option error;
  DeleteVolume : list CloudCall -> string -> DeleteVolumeResponse * option error
}.

(** [instancemeta.Interface]. *)
Record MetadataService : Type := {
  Get : list CloudCall -> InstanceMetadata * option error
}.

(** Computations that may call the collaborators: the trace of calls is
    threaded through. *)
Definition Cloud (A : Type) : Type := list CloudCall -> Result A * list CloudCall.

Global Instance Cloud_ret : MRet Cloud := fun _ a tr => (Ok a, tr).
Global Instance Cloud_bind : MBind Cloud := fun _ _ k m tr =>
  match m tr with
  | (Ok a, tr') => k a tr'
  | (Err e, tr') => (Err e, tr')
  | (Panic msg, tr') => (Panic msg, tr')
  end.

Definition liftResult {A} (r : Result A) : Cloud A := fun tr => (r, tr).

Definition callCreateVolume (c : ProvisionerClient) (details : CreateVolumeDetails)
  : Cloud (CreateVolumeResponse * option error) :=
  fun tr => (Ok (CreateVolume c tr details), tr ++ [CreateVolumeCall details]).

Definition callDeleteVolume (c : ProvisionerClient) (volumeId : string)
  : Cloud (DeleteVolumeResponse * option error) :=
  fun tr => (Ok (DeleteVolume c tr volumeId), tr ++ [DeleteVolumeCall volumeId]).

Definition callMetadataGet (m : MetadataService)
  : Cloud (InstanceMetadata * option error) :=
  fun tr => (Ok (Get m tr), tr ++ [MetadataGetCall]).

(** ** Constants *)

Definition ociVolumeID : string := "ociVolumeID".
Definition ociVolumeBackupID : string := "volume.beta.kubernetes.io/oci-volume-source".
Definition ociTagAnnotation : string := "oraclecloud.com/additional-tags".
Definition defaultTagsEnvVar : string := "OCI_DEFAULT_TAGS".
Definition volumePrefixEnvVarName : string := "OCI_VOLUME_NAME_PREFIX".
Definition fsType : string := "fsType".

(** [v1.ReadWriteOnce], [v1.ResourceStorage], [http.StatusNotFound]. *)
Definition ReadWriteOnce : string := "ReadWriteOnce".
Definition ResourceStorage : string := "storage".
Definition StatusNotFound : Z := 404.

(** The process environment: [os.Getenv] and [os.LookupEnv]. *)
Definition Getenv (env : gmap string string) (name : string) : string :=
  default EmptyString (env !! name).
Definition LookupEnv (env : gmap string string) (name : string) : option string :=
  env !! name.

(** ** Volume identifiers: [mapVolumeIDToName] *)

(** [strings.Split(volumeID, ".")[4]]; indexing a slice past its end
    panics. *)
Definition mapVolumeIDToName (volumeID : string) : Result string :=
  match GoStrings.Split volumeID "."%char !! 4%nat with
  | Some name => Ok name
  | None => Panic "runtime error: index out of range"
  end.

(** ** Volume sizing: [roundUpSize] *)

(** [(volumeSizeBytes + allocationUnitBytes - 1) / allocationUnitBytes],
    evaluated left to right in [int64]. *)
Definition roundUpSize (volumeSizeBytes allocationUnitBytes : Z) : option Z :=
  Int64.div
    (Int64.sub (Int64.add volumeSizeBytes allocationUnitBytes) 1)
    allocationUnitBytes.

(** The allocation unit [1024*1024] that [Provision] passes. *)
Definition MiB : Z := 1024 * 1024.

(** ** Tag resolution: [parseTags] and [getTags] *)

(** [fmt.Errorf("tag format must follow (<namespace>.)<tagkey>=<value>: %q", tag)]. *)
Definition tagFormatPrefix : string :=
  "tag format must follow (<namespace>.)<tagkey>=<value>: ".
Definition tagFormatError (tag : string) : error :=
  errorQuoted tagFormatPrefix tag.

(** The body of the loop of [parseTags], on the two maps built so far.
    [namespaceTags] is the map stored under [namespace], so the assignment
    [namespaceTags[key] = value] is seen through [defined]. *)
Definition parseTag (tag : string) (maps : DefinedTags * FreeformTags)
  : Result (DefinedTags * FreeformTags) :=
  let '(defined, freeform) := maps in
  match GoStrings.Split tag "="%char with
  | [key; value] =>
      match GoStrings.Split key "."%char with
      | [_] => Ok (defined, <[key := value]> freeform)
      | [namespace; key] =>
          let '(namespaceTags, defined) :=
            match defined !! namespace with
            | Some namespaceTags => (namespaceTags, defined)
            | None => (∅, <[namespace := ∅]> defined)
            end in
          Ok (<[namespace := <[key := value]> namespaceTags]> defined, freeform)
      | _ => Err (tagFormatError tag)
      end
  | _ => Err (tagFormatError tag)
  end.

Fixpoint parseTagList (tags : list string) (maps : DefinedTags * FreeformTags)
  : Result (DefinedTags * FreeformTags) :=
  match tags with
  | [] => Ok maps
  | tag :: rest => maps' ← parseTag tag maps; parseTagList rest maps'
  end.

Definition parseTags (tagStr : string) : Result (DefinedTags * FreeformTags) :=
  if String.eqb tagStr EmptyString then Ok (∅, ∅)
  else parseTagList (GoStrings.Split tagStr ","%char) (∅, ∅).

(** The inner loop of the merge: [defaultDefinedTags[namespace][tag] = value]
    for every entry of [tags]. *)
Definition mergeNamespace (namespace : string) (tags : gmap string string)
    (defaultDefinedTags : DefinedTags) : DefinedTags :=
  map_fold (fun tag value acc => alter (<[tag := value]>) namespace acc)
    defaultDefinedTags tags.

Definition mergeDefinedTags (definedTags defaultDefinedTags : DefinedTags)
  : DefinedTags :=
  map_fold (fun namespace tags acc =>
              let acc :=
                match acc !! namespace with
                | Some _ => acc
                | None => <[namespace := ∅]> acc
                end in
              mergeNamespace namespace tags acc)
    defaultDefinedTags definedTags.

Definition mergeFreeformTags (freeformTags defaultFreeformTags : FreeformTags)
  : FreeformTags :=
  map_fold (fun tag value acc => <[tag := value]> acc)
    defaultFreeformTags freeformTags.

Definition getTags (env annotations : gmap string string)
  : Result (DefinedTags * FreeformTags) :=
  '(defaultDefinedTags, defaultFreeformTags) ←
    parseTags (Getenv env defaultTagsEnvVar);
  '(definedTags, freeformTags) ←
    parseTags (default EmptyString (annotations !! ociTagAnnotation));
  Ok (mergeDefinedTags definedTags defaultDefinedTags,
      mergeFreeformTags freeformTags defaultFreeformTags).

(** ** The provisioner *)

(** The two methods of [resource.Quantity] that the provisioner calls:
    [Value] is the quantity as an [int64], [Cmp q y] is [-1], [0] or [1] as
    [q] is less than, equal to or greater than [y]. *)
Class QuantityOps (Quantity : Type) : Type := {
  Value : Quantity -> Z;
  Cmp : Quantity -> Quantity -> Z
}.

(** The names exported by the package [plugin], which this file only
    imports. *)
Class PluginNames : Type := {
  OCIProvisionerName : string;
  LabelZoneRegion : string;
  LabelZoneFailureDomain : string
}.

Section Provisioner.

Context {Quantity : Type} `{QuantityOps Quantity} `{PluginNames}.

(** [v1.PersistentVolumeClaim], with [Spec.AccessModes] and
    [Spec.Resources.Requests] flattened. *)
Record PersistentVolumeClaim : Type := {
  Name : string;
  Annotations : gmap string string;
  AccessModes : list string;
  Requests : gmap string Quantity
}.

(** [controller.VolumeOptions]. *)
Record VolumeOptions : Type := {
  PersistentVolumeReclaimPolicy : string;
  PVC : PersistentVolumeClaim;
  Parameters : gmap string string
}.

(** [identity.AvailabilityDomain]. *)
Record AvailabilityDomainT : Type := { ad_Name : string }.

Record FlexVolumeSource : Type := { Driver : string; FSType : string }.

(** [v1.PersistentVolume], the descriptor handed back to the controller. *)
Record PersistentVolume : Type := {
  pv_Name : string;
  pv_Annotations : gmap string string;
  pv_Labels : gmap string string;
  pv_ReclaimPolicy : string;
  pv_AccessModes : list string;
  pv_Capacity : gmap string Quantity;
  pv_FlexVolume : FlexVolumeSource
}.

Record blockProvisioner : Type := {
  client : ProvisionerClient;
  metadata : MetadataService;
  volumeRoundingEnabled : bool;
  minVolumeSize : Quantity
}.

(** [NewBlockProvisioner] creates a new instance of the provisioner. *)
Definition NewBlockProvisioner (client : ProvisionerClient)
    (metadata : MetadataService) (volumeRoundingEnabled : bool)
    (minVolumeSize : Quantity) : blockProvisioner := {|
  client := client;
  metadata := metadata;
  volumeRoundingEnabled := volumeRoundingEnabled;
  minVolumeSize := minVolumeSize
|}.

Definition resolveFSType (options : VolumeOptions) : string :=
  match Parameters options !! fsType with
  | Some fs => fs
  | None => "ext4"
  end.

(** [fmt.Errorf("invalid access mode %v specified. Only %v is supported",
    accessMode, v1.ReadWriteOnce)]. *)
Definition accessModeError (accessMode : string) : error :=
  errorString ("invalid access mode " +:+ accessMode +:+
               " specified. Only " +:+ ReadWriteOnce +:+ " is supported").

(** The loop over [options.PVC.Spec.AccessModes]. *)
Fixpoint checkAccessModes (modes : list string) : Result unit :=
  match modes with
  | [] => Ok tt
  | accessMode :: rest =>
      if negb (String.eqb accessMode ReadWriteOnce)
      then Err (accessModeError accessMode)
      else checkAccessModes rest
  end.

(** [volumeDetails.DefinedTags = ...; volumeDetails.FreeformTags = ...]. *)
Definition withTags (details : CreateVolumeDetails)
    (definedTags : DefinedTags) (freeformTags : FreeformTags)
  : CreateVolumeDetails := {|
    AvailabilityDomain := AvailabilityDomain details;
    CompartmentId := CompartmentId details;
    DisplayName := DisplayName details;
    SizeInMBs := SizeInMBs details;
    DefinedTagsOf := definedTags;
    FreeformTagsOf := freeformTags;
    SourceDetails := SourceDetails details
  |}.

(** [volumeDetails.SourceDetails = &VolumeSourceFromVolumeBackupDetails{Id: &value}]. *)
Definition withSource (details : CreateVolumeDetails) (value : string)
  : CreateVolumeDetails := {|
    AvailabilityDomain := AvailabilityDomain details;
    CompartmentId := CompartmentId details;
    DisplayName := DisplayName details;
    SizeInMBs := SizeInMBs details;
    DefinedTagsOf := DefinedTagsOf details;
    FreeformTagsOf := FreeformTagsOf details;
    SourceDetails := Some value
  |}.

(** [Provision] creates an OCI block volume. *)
Definition Provision (block : blockProvisioner) (env : gmap string string)
    (options : VolumeOptions) (ad : AvailabilityDomainT)
  : Cloud PersistentVolume :=
  _ ← liftResult (checkAccessModes (AccessModes (PVC options)));
  capacity ← liftResult
    match Requests (PVC options) !! ResourceStorage with
    | Some capacity => Ok capacity
    | None => Err (errorString "could not determine volume size for PVC")
    end;
  volSizeMB ← liftResult (checked (roundUpSize (Value capacity) MiB));
  '(volSizeMB, capacity) ← liftResult
    (if volumeRoundingEnabled block
        && (Cmp (minVolumeSize block) capacity =? 1)
     then
       volSizeMB ← checked (roundUpSize (Value (minVolumeSize block)) MiB);
       Ok (volSizeMB, minVolumeSize block)
     else Ok (volSizeMB, capacity));
  let volumeDetails := {|
    AvailabilityDomain := ad_Name ad;
    CompartmentId := CompartmentOCID (client block);
    DisplayName := Getenv env volumePrefixEnvVarName +:+ Name (PVC options);
    SizeInMBs := volSizeMB;
    DefinedTagsOf := ∅;
    FreeformTagsOf := ∅;
    SourceDetails := None
  |} in
  '(definedTags, freeformTags) ←
    liftResult (getTags env (Annotations (PVC options)));
  let volumeDetails := withTags volumeDetails definedTags freeformTags in
  let volumeDetails :=
    match Annotations (PVC options) !! ociVolumeBackupID with
    | Some value => withSource volumeDetails value
    | None => volumeDetails
    end in
  (* [prefix] is computed here, as in the source, and not read afterwards. *)
  let prefix := GoStrings.TrimSpace (Getenv env volumePrefixEnvVarName) in
  let prefix :=
    if negb (String.eqb prefix EmptyString)
       && negb (GoStrings.HasSuffix prefix "-")
    then prefix +:+ "-" else prefix in
  '(newVolume, err) ← callCreateVolume (client block) volumeDetails;
  match err with
  | Some e => liftResult (Err e)
  | None =>
      let filesystemType := resolveFSType options in
      region ←
        match LookupEnv env "OCI_SHORT_REGION" with
        | Some region => mret region
        | None =>
            '(metadata, err) ← callMetadataGet (metadata block);
            match err with
            | Some e => liftResult (Err e)
            | None => mret (Region metadata)
            end
        end;
      mret {|
        pv_Name := Volume_Id newVolume;
        pv_Annotations := {[ ociVolumeID := Volume_Id newVolume ]};
        pv_Labels :=
          <[LabelZoneFailureDomain := ad_Name ad]>
            (<[LabelZoneRegion := region]> ∅);
        pv_ReclaimPolicy := PersistentVolumeReclaimPolicy options;
        pv_AccessModes := AccessModes (PVC options);
        pv_Capacity := {[ ResourceStorage := capacity ]};
        pv_FlexVolume :=
          {| Driver := OCIProvisionerName; FSType := filesystemType |}
      |}
  end.

(** [Delete] destroys a volume created by [Provision]; [Ok tt] is the nil
    error. *)
Definition Delete (block : blockProvisioner) (volume : PersistentVolume)
  : Cloud unit :=
  match pv_Annotations volume !! ociVolumeID with
  | None => liftResult (Err (errorString "volumeid annotation not found on PV"))
  | Some volID =>
      '(response, err) ← callDeleteVolume (client block) volID;
      let notFound :=
        match RawResponse response with
        | Some raw => StatusCode raw =? StatusNotFound
        | None => false
        end in
      if notFound then mret tt
      else match err with
           | Some e => liftResult (Err e)
           | None => mret tt
           end
  end.

End Provisioner.

Arguments PersistentVolumeClaim : clear implicits.
Arguments VolumeOptions : clear implicits.
Arguments PersistentVolume : clear implicits.
Arguments blockProvisioner : clear implicits.

(** Quantities that are whole numbers of bytes within [int64]. *)
Module ByteQuantity.

Definition cmp (q y : Z) : Z :=
  match Z.compare q y with
  | Lt => -1
  | Eq => 0
  | Gt => 1
  end.

#[export] Instance ops : QuantityOps Z := {| Value := fun q => q; Cmp := cmp |}.

Definition GiB : Z := 1024 * 1024 * 1024.

End ByteQuantity.

(** ** A concrete deployment, used to run the definitions *)

Module Sample.

Import ByteQuantity.

#[export] Instance names : PluginNames := {|
  OCIProvisionerName := "oracle/oci";
  LabelZoneRegion := "failure-domain.beta.kubernetes.io/region";
  LabelZoneFailureDomain := "failure-domain.beta.kubernetes.io/zone"
|}.

(** A table without printable runes above U+00FF; the runs below use
    Latin-1 strings, for which the table is not consulted. *)
#[export] Instance tables : UnicodeTables := {| isPrintWide := fun _ => false |}.

(** A cloud client whose calls all succeed. *)
Definition okClient : ProvisionerClient := {|
  CompartmentOCID := "ocid1.compartment.oc1..sample";
  CreateVolume := fun _ _ => ({| Volume_Id := "ocid1.volume.oc1.phx.sample" |}, None);
  DeleteVolume := fun _ _ => ({| RawResponse := Some {| StatusCode := 204 |} |}, None)
|}.

(** A cloud client that answers a delete with "not found" and an error. *)
Definition goneClient : ProvisionerClient := {|
  CompartmentOCID := "ocid1.compartment.oc1..sample";
  CreateVolume := fun _ _ => ({| Volume_Id := EmptyString |}, Some (collaboratorError "unreachable"));
  DeleteVolume := fun _ _ =>
    ({| RawResponse := Some {| StatusCode := 404 |} |}, Some (collaboratorError "NotAuthorizedOrNotFound"))
|}.

(** A cloud client whose delete fails with a server error. *)
Definition failingClient : ProvisionerClient := {|
  CompartmentOCID := "ocid1.compartment.oc1..sample";
  CreateVolume := fun _ _ => ({| Volume_Id := EmptyString |}, Some (collaboratorError "unreachable"));
  DeleteVolume := fun _ _ =>
    ({| RawResponse := Some {| StatusCode := 500 |} |}, Some (collaboratorError "InternalServerError"))
|}.

Definition metadataService : MetadataService := {|
  Get := fun _ => ({| Region := "phx" |}, None)
|}.

(** A cloud client that deletes a volume on the first delete-volume call and
    answers every later one with "not found". *)
Definition forgetfulClient : ProvisionerClient := {|
  CompartmentOCID := "ocid1.compartment.oc1..sample";
  CreateVolume := fun _ _ => ({| Volume_Id := "ocid1.volume.oc1.phx.sample" |}, None);
  DeleteVolume := fun tr _ =>
    if existsb (fun call => match call with
                            | DeleteVolumeCall _ => true
                            | _ => false
                            end) tr
    then ({| RawResponse := Some {| StatusCode := 404 |} |},
          Some (collaboratorError "NotAuthorizedOrNotFound"))
    else ({| RawResponse := Some {| StatusCode := 204 |} |}, None)
|}.

(** A metadata service that cannot be reached. *)
Definition failingMetadata : MetadataService := {|
  Get := fun _ => ({| Region := EmptyString |}, Some (collaboratorError "metadata unavailable"))
|}.

(** A provisioner whose create-volume calls succeed and whose metadata
    service fails. *)
Definition strandedProvisioner : blockProvisioner Z := {|
  client := okClient;
  metadata := failingMetadata;
  volumeRoundingEnabled := false;
  minVolumeSize := 50 * GiB
|}.

Definition provisioner (c : ProvisionerClient) (rounding : bool) : blockProvisioner Z := {|
  client := c;
  metadata := metadataService;
  volumeRoundingEnabled := rounding;
  minVolumeSize := 50 * GiB
|}.

Definition claim (name : string) (annotations : gmap string string)
    (modes : list string) (requests : gmap string Z) : VolumeOptions Z := {|
  PersistentVolumeReclaimPolicy := "Delete";
  PVC := {| Name := name; Annotations := annotations;
            AccessModes := modes; Requests := requests |};
  Parameters := ∅
|}.

Definition ad1 : AvailabilityDomainT := {| ad_Name := "AD-1" |}.

Definition volume (annotations : gmap string string) : PersistentVolume Z := {|
  pv_Name := "pv";
  pv_Annotations := annotations;
  pv_Labels := ∅;
  pv_ReclaimPolicy := "Delete";
  pv_AccessModes := [ReadWriteOnce];
  pv_Capacity := ∅;
  pv_FlexVolume := {| Driver := "oracle/oci"; FSType := "ext4" |}
|}.

End Sample.

(** ** Notions used to state the parsing rules *)

(** The part of a piece before its first [=]. *)
Definition tagKey (tag : string) : string :=
  hd EmptyString (GoStrings.Split tag "="%char).

(** The segment-count rules, in the words of the specification: exactly one
    [=], and a key of one or two segments separated by [.]. *)
Definition wellFormedTag (tag : string) : bool :=
  (GoStrings.Count tag "="%char =? 1)%nat
  && (GoStrings.Count (tagKey tag) "."%char <=? 1)%nat.

(** The part of [s] before its first [sep], all of [s] when there is none,
    and the part after it. *)
Fixpoint beforeFirst (sep : ascii) (s : string) : string :=
  match s with
  | EmptyString => EmptyString
  | String c rest =>
      if Ascii.eqb c sep then EmptyString else String c (beforeFirst sep rest)
  end.

Fixpoint afterFirst (sep : ascii) (s : string) : string :=
  match s with
  | EmptyString => EmptyString
  | String c rest => if Ascii.eqb c sep then rest else afterFirst sep rest
  end.

(** What one well-formed piece adds, in the words of the specification: the
    part before the [=] is the key and the part after it the value; a key
    of one segment is a free-form tag, a key of two segments is a defined
    tag under its first segment. *)
Definition applyPiece (piece : string) (maps : DefinedTags * FreeformTags)
  : DefinedTags * FreeformTags :=
  let key := beforeFirst "="%char piece in
  let value := afterFirst "="%char piece in
  if (GoStrings.Count key "."%char =? 0)%nat
  then (maps.1, <[key := value]> maps.2)
  else
    let namespace := beforeFirst "."%char key in
    let name := afterFirst "."%char key in
    (<[namespace := <[name := value]> (default ∅ (maps.1 !! namespace))]> maps.1,
     maps.2).

(** The parsing rules as the specification words them: the empty
    specification gives two empty maps; otherwise the first comma-separated
    piece that breaks the segment-count rules is reported, and without such
    a piece the pieces are applied from left to right. *)
Definition parseTagsSpec (tagStr : string) : Result (DefinedTags * FreeformTags) :=
  if String.eqb tagStr EmptyString then Ok (∅, ∅)
  else
    let pieces := GoStrings.Split tagStr ","%char in
    match List.find (fun piece => negb (wellFormedTag piece)) pieces with
    | Some bad => Err (tagFormatError bad)
    | None =>
        Ok (fold_left (fun maps piece => applyPiece piece maps) pieces (∅, ∅))
    end.

(** A namespace or key that holds none of the three separators, and a
    value that holds neither [=] nor a comma. *)
Definition separatorFree (s : string) : Prop :=
  GoStrings.Count s "."%char = O /\ GoStrings.Count s "="%char = O
  /\ GoStrings.Count s ","%char = O.

Definition valueClean (s : string) : Prop :=
  GoStrings.Count s "="%char = O /\ GoStrings.Count s ","%char = O.

(** No namespace of a defined-tag map is empty. *)
Definition namespacesInhabited (defined : DefinedTags) : Prop :=
  forall namespace tags, defined !! namespace = Some tags -> tags <> ∅.


(** ** Notions used to state the properties of [Provision] *)

Section ProvisionNotions.

Context {Quantity : Type} `{QuantityOps Quantity}.

(** The billable capacity: the floor when rounding is on and the floor
    compares greater than the request, the request otherwise. *)
Definition billedCapacity (block : blockProvisioner Quantity) (capacity : Quantity) : Quantity :=
  if volumeRoundingEnabled block && (Cmp (minVolumeSize block) capacity =? 1)
  then minVolumeSize block else capacity.

(** The request that [Provision] sends. *)
Definition requestOf (block : blockProvisioner Quantity)
    (env : gmap string string) (options : VolumeOptions Quantity)
    (ad : AvailabilityDomainT)
    (size : Z) (definedTags : DefinedTags) (freeformTags : FreeformTags)
  : CreateVolumeDetails := {|
    AvailabilityDomain := ad_Name ad;
    CompartmentId := CompartmentOCID (client block);
    DisplayName := Getenv env volumePrefixEnvVarName +:+ Name (PVC options);
    SizeInMBs := size;
    DefinedTagsOf := definedTags;
    FreeformTagsOf := freeformTags;
    SourceDetails := Annotations (PVC options) !! ociVolumeBackupID
  |}.

(** The descriptor that [Provision] returns for the volume [newVolume]
    placed in [region]. *)
Definition descriptorOf `{PluginNames} (options : VolumeOptions Quantity)
    (ad : AvailabilityDomainT) (capacity : Quantity)
    (newVolume : CreateVolumeResponse) (region : string)
  : PersistentVolume Quantity := {|
  pv_Name := Volume_Id newVolume;
  pv_Annotations := {[ ociVolumeID := Volume_Id newVolume ]};
  pv_Labels :=
    <[LabelZoneFailureDomain := ad_Name ad]> (<[LabelZoneRegion := region]> ∅);
  pv_ReclaimPolicy := PersistentVolumeReclaimPolicy options;
  pv_AccessModes := AccessModes (PVC options);
  pv_Capacity := {[ ResourceStorage := capacity ]};
  pv_FlexVolume :=
    {| Driver := OCIProvisionerName; FSType := resolveFSType options |}
|}.

(** What [Provision] does from the create-volume call on, for the request
    [details] and the capacity to record. *)
Definition afterRequest `{PluginNames} (block : blockProvisioner Quantity)
    (env : gmap string string) (options : VolumeOptions Quantity)
    (ad : AvailabilityDomainT) (capacity : Quantity)
    (details : CreateVolumeDetails) (tr : list CloudCall)
  : Result (PersistentVolume Quantity) * list CloudCall :=
  let tr1 := tr ++ [CreateVolumeCall details] in
  match CreateVolume (client block) tr details with
  | (_, Some e) => (Err e, tr1)
  | (newVolume, None) =>
      match LookupEnv env "OCI_SHORT_REGION" with
      | Some region => (Ok (descriptorOf options ad capacity newVolume region), tr1)
      | None =>
          match Get (metadata block) tr1 with
          | (_, Some e) => (Err e, tr1 ++ [MetadataGetCall])
          | (md, None) =>
              (Ok (descriptorOf options ad capacity newVolume (Region md)),
               tr1 ++ [MetadataGetCall])
          end
      end
  end.

(** The calls of a trace that are create-volume calls. *)
Definition createCalls (calls : list CloudCall) : list CreateVolumeDetails :=
  omap (fun call => match call with
                    | CreateVolumeCall details => Some details
                    | _ => None
                    end) calls.

End ProvisionNotions.

(** * Properties *)

(** ** Machine integers and [roundUpSize] *)

Lemma wrap64_id z : Int64.in_range z -> Int64.wrap64 z = z.
Proof.
  unfold Int64.in_range, Int64.wrap64, Int64.modulus, Int64.min_int64,
    Int64.max_int64.
  intros Hz. rewrite Z.mod_small; lia.
Qed.

Lemma wrap64_sub_idemp x y :
  Int64.wrap64 (Int64.wrap64 x - y) = Int64.wrap64 (x - y).
Proof.
  unfold Int64.wrap64. f_equal.
  replace ((x + 2 ^ 63) mod Int64.modulus - 2 ^ 63 - y + 2 ^ 63)
    with ((x + 2 ^ 63) mod Int64.modulus + (- y)) by lia.
  rewrite Zplus_mod_idemp_l. f_equal. lia.
Qed.

Lemma roundUpSize_no_overflow b u :
  0 < b -> 0 < u -> b + u - 1 <= Int64.max_int64 ->
  roundUpSize b u = Some ((b + u - 1) / u).
Proof.
  intros Hb Hu Hmax. unfold roundUpSize, Int64.div, Int64.sub, Int64.add.
  assert (Hr : forall z, 0 <= z <= Int64.max_int64 -> Int64.wrap64 z = z).
  { intros z Hz. apply wrap64_id. unfold Int64.in_range, Int64.min_int64.
    unfold Int64.max_int64 in *. lia. }
  destruct (Z.eqb_spec u 0) as [->|_]; [lia|].
  rewrite wrap64_sub_idemp, (Hr (b + u - 1)) by lia.
  rewrite Z.quot_div_nonneg by lia.
  rewrite Hr; [done|].
  split; [apply Z.div_pos; lia|].
  transitivity (b + u - 1); [|done].
  apply Z.div_le_upper_bound; nia.
Qed.

(** With the unit of [Provision] the division never panics. *)
Lemma roundUpSize_MiB_total b : exists q, roundUpSize b MiB = Some q.
Proof. unfold roundUpSize, Int64.div. simpl. eauto. Qed.

(** C9 (as amended): for positive [b] and [u] whose sum [b + u - 1] still
    fits an [int64], [roundUpSize b u] is [(b + u - 1) / u], which is the
    ceiling of [b / u] (the least [q] with [b <= q * u]) and is positive;
    it is 1 at [(u, u)] and 2 at [(u + 1, u)]. *)
Theorem roundUpSize_ceiling (b u : Z) :
  0 < b -> 0 < u -> b + u - 1 <= Int64.max_int64 ->
  exists q,
    roundUpSize b u = Some q /\
    q = (b + u - 1) / u /\
    (q - 1) * u < b <= q * u /\
    0 < q /\
    (b = u -> q = 1) /\
    (b = u + 1 -> q = 2).
Proof.
  intros Hb Hu Hmax. exists ((b + u - 1) / u).
  split; [by apply roundUpSize_no_overflow|]. split; [done|].
  pose proof (Z.div_mod (b + u - 1) u ltac:(lia)) as Hdm.
  pose proof (Z.mod_pos_bound (b + u - 1) u Hu) as Hmod.
  assert (Hceil : ((b + u - 1) / u - 1) * u < b <= (b + u - 1) / u * u) by nia.
  split; [done|]. split; [nia|]. split; intros ->; nia.
Qed.

Lemma roundUpSize_ceiling_witness :
  exists q, roundUpSize (MiB + 1) MiB = Some q /\ q = 2.
Proof.
  destruct (roundUpSize_ceiling (MiB + 1) MiB) as (q & Hq & _ & _ & _ & _ & H2);
    [unfold MiB; lia | unfold MiB; lia | unfold MiB, Int64.max_int64; lia |].
  exists q. split; [exact Hq | apply H2; lia].
Defined.

(** C9 (as stated) fails at the top of the [int64] range: the sum wraps and
    the quotient is negative, although both arguments are positive. *)
Lemma roundUpSize_overflow_counterexample :
  0 < Int64.max_int64 /\ 0 < MiB /\
  roundUpSize Int64.max_int64 MiB = Some (- 8796093022207) /\
  ~ (exists q, roundUpSize Int64.max_int64 MiB = Some q /\
               Int64.max_int64 <= q * MiB /\ 0 < q).
Proof.
  split; [done|]. split; [done|]. split; [by vm_compute|].
  intros (q & Hq & _ & Hpos). vm_compute in Hq. injection Hq as <-. lia.
Qed.

(** ** Splitting strings *)

Section SplitLemmas.

Variable sep : ascii.

Lemma Split_length s :
  length (GoStrings.Split s sep) = S (GoStrings.Count s sep).
Proof.
  induction s as [|c s IH]; simpl; [done|].
  destruct (Ascii.eqb c sep); simpl; [by rewrite IH|].
  destruct (GoStrings.Split s sep); simpl in *; [discriminate|done].
Qed.

Lemma Split_no_sep s :
  GoStrings.Count s sep = O -> GoStrings.Split s sep = [s].
Proof.
  induction s as [|c s IH]; simpl; [done|].
  destruct (Ascii.eqb c sep); simpl; [discriminate|].
  intros Hs. by rewrite IH.
Qed.

Lemma Split_app k v :
  GoStrings.Count k sep = O ->
  GoStrings.Split (k +:+ String sep v) sep = k :: GoStrings.Split v sep.
Proof.
  induction k as [|c k IH]; simpl.
  - intros _. by rewrite Ascii.eqb_refl.
  - destruct (Ascii.eqb c sep); simpl; [discriminate|].
    intros Hk. by rewrite IH.
Qed.

Lemma Count_app k v :
  GoStrings.Count (k +:+ v) sep
  = (GoStrings.Count k sep + GoStrings.Count v sep)%nat.
Proof. induction k as [|c k IH]; simpl; [done|]. rewrite IH. lia. Qed.

(** A string with [n + 1] occurrences of the separator is a first piece
    without separator, the separator, and a rest. *)
Lemma Count_pos_inv s n :
  GoStrings.Count s sep = S n ->
  exists k v, s = k +:+ String sep v /\
              GoStrings.Count k sep = O /\ GoStrings.Count v sep = n.
Proof.
  induction s as [|c s IH]; simpl; [discriminate|].
  destruct (Ascii.eqb_spec c sep) as [->|Hne]; simpl.
  - intros [= Hs]. by exists EmptyString, s.
  - intros Hs. destruct (IH Hs) as (k & v & -> & Hk & Hv).
    exists (String c k), v. simpl.
    destruct (Ascii.eqb_spec c sep); [done|]. done.
Qed.

Lemma Split_pair s :
  GoStrings.Count s sep = 1%nat ->
  exists k v, s = k +:+ String sep v /\ GoStrings.Split s sep = [k; v] /\
              GoStrings.Count k sep = O /\ GoStrings.Count v sep = O.
Proof.
  intros Hs. destruct (Count_pos_inv s O Hs) as (k & v & -> & Hk & Hv).
  exists k, v. by rewrite Split_app, (Split_no_sep v).
Qed.

End SplitLemmas.

(** ** Quoting and containment *)

Lemma DecodeRuneInString_bytes b rest r bytes :
  GoStrings.DecodeRuneInString b rest = Some (r, bytes) ->
  exists pre tail, bytes = String b pre /\ rest = pre +:+ tail.
Proof.
  unfold GoStrings.DecodeRuneInString.
  destruct (N_of_ascii b <? 128)%N.
  { intros [= _ <-]. by exists EmptyString, rest. }
  destruct ((194 <=? N_of_ascii b)%N && (N_of_ascii b <=? 223)%N).
  { destruct rest as [|b1 rest]; [done|].
    destruct (GoStrings.inRange 128 191 b1); [|done].
    intros [= _ <-]. by exists (String b1 EmptyString), rest. }
  destruct ((224 <=? N_of_ascii b)%N && (N_of_ascii b <=? 239)%N).
  { destruct rest as [|b1 [|b2 rest]]; [done..|].
    destruct (_ && _); [|done].
    intros [= _ <-]. by exists (String b1 (String b2 EmptyString)), rest. }
  destruct ((240 <=? N_of_ascii b)%N && (N_of_ascii b <=? 244)%N); [|done].
  destruct rest as [|b1 [|b2 [|b3 rest]]]; [done..|].
  destruct (_ && _); [|done].
  intros [= _ <-].
  by exists (String b1 (String b2 (String b3 EmptyString))), rest.
Qed.

Lemma dropBytes_app pre tail :
  GoStrings.dropBytes (String.length pre) (pre +:+ tail) = tail.
Proof. induction pre as [|c pre IH]; [by destruct tail|exact IH]. Qed.

(** A string that [keptFrom] accepts is copied by the loop of
    [strconv.Quote]. *)
Lemma quoteFrom_kept wide s :
  forall skip,
    GoStrings.keptFrom wide skip s = true ->
    GoStrings.quoteFrom wide skip s = GoStrings.dropBytes skip s.
Proof.
  induction s as [|b rest IH]; intros skip; [by destruct skip|].
  destruct skip as [|skip]; [|apply IH].
  cbn [GoStrings.keptFrom GoStrings.quoteFrom GoStrings.dropBytes].
  destruct (GoStrings.DecodeRuneInString b rest) as [[r bytes]|] eqn:Hdec;
    [|done].
  intros [[Hq Hp]%andb_prop Hrest]%andb_prop.
  apply negb_true_iff in Hq.
  unfold GoStrings.appendEscapedRune. rewrite Hq, Hp.
  destruct (DecodeRuneInString_bytes _ _ _ _ Hdec) as (pre & tail & -> & ->).
  cbn [String.length] in *. rewrite Nat.sub_1_r in *. cbn [Nat.pred] in *.
  rewrite (IH _ Hrest), dropBytes_app. done.
Qed.

Lemma prefix_app s t : String.prefix s (s +:+ t) = true.
Proof.
  induction s as [|c s IH]; simpl; [by destruct t|].
  destruct (ascii_dec c c); [done|congruence].
Qed.

Lemma Contains_unfold s t :
  GoStrings.Contains s t
  = String.prefix t s
    || match s with
       | EmptyString => false
       | String _ rest => GoStrings.Contains rest t
       end.
Proof. by destruct s. Qed.

Lemma Contains_prefix s t : GoStrings.Contains (s +:+ t) s = true.
Proof. by rewrite Contains_unfold, prefix_app. Qed.

Lemma Contains_app_r p s t :
  GoStrings.Contains s t = true -> GoStrings.Contains (p +:+ s) t = true.
Proof.
  intros Hs. induction p as [|c p IH]; [done|].
  change (String c p +:+ s) with (String c (p +:+ s)).
  rewrite Contains_unfold, IH. apply orb_true_r.
Qed.

Lemma append_empty_r s : s +:+ EmptyString = s.
Proof.
  induction s as [|c s IH]; [done|].
  change (String c s +:+ EmptyString) with (String c (s +:+ EmptyString)).
  by rewrite IH.
Qed.

Section FormatErrorMessage.

Context `{UnicodeTables}.

(** The message of the format error ends in the quoted piece. *)
Lemma tagFormatError_quoted tag :
  errorMessage (tagFormatError tag)
  = tagFormatPrefix +:+ GoStrings.Quote isPrintWide tag
  /\ GoStrings.Contains (errorMessage (tagFormatError tag))
       (GoStrings.Quote isPrintWide tag) = true.
Proof.
  split; [done|]. unfold tagFormatError, errorMessage. apply Contains_app_r.
  rewrite <- (append_empty_r (GoStrings.Quote isPrintWide tag)) at 1.
  apply Contains_prefix.
Qed.

Lemma tagFormatError_kept tag :
  keptByQuote tag = true ->
  GoStrings.Contains (errorMessage (tagFormatError tag)) tag = true.
Proof.
  intros Hp. unfold tagFormatError, errorMessage. apply Contains_app_r.
  unfold GoStrings.Quote.
  rewrite (quoteFrom_kept _ tag O Hp). cbn [GoStrings.dropBytes].
  replace (GoStrings.dropBytes 0 tag) with tag by (by destruct tag).
  apply (Contains_app_r (String GoStrings.dquote EmptyString)).
  apply Contains_prefix.
Qed.

End FormatErrorMessage.

(** ** One piece of a tag specification *)

Lemma parseTag_equals_count tag maps :
  GoStrings.Count tag "="%char <> 1%nat ->
  parseTag tag maps = Err (tagFormatError tag).
Proof.
  intros Hn. unfold parseTag. destruct maps as [defined freeform].
  pose proof (Split_length "="%char tag) as Hlen.
  destruct (GoStrings.Split tag "="%char) as [|a [|b [|c l]]]; simpl in Hlen;
    try done.
  lia.
Qed.

Lemma parseTag_freeform key value defined freeform :
  GoStrings.Count key "="%char = O -> GoStrings.Count value "="%char = O ->
  GoStrings.Count key "."%char = O ->
  parseTag (key +:+ String "="%char value) (defined, freeform)
  = Ok (defined, <[key := value]> freeform).
Proof.
  intros Hk Hv Hd. unfold parseTag.
  by rewrite (Split_app _ _ _ Hk), (Split_no_sep _ _ Hv), (Split_no_sep _ _ Hd).
Qed.

Lemma parseTag_defined namespace key value defined freeform :
  GoStrings.Count (namespace +:+ String "."%char key) "="%char = O ->
  GoStrings.Count value "="%char = O ->
  GoStrings.Count namespace "."%char = O -> GoStrings.Count key "."%char = O ->
  parseTag ((namespace +:+ String "."%char key) +:+ String "="%char value)
    (defined, freeform)
  = Ok (<[namespace := <[key := value]> (default ∅ (defined !! namespace))]>
          defined, freeform).
Proof.
  intros Hk Hv Hn Hd. unfold parseTag.
  rewrite (Split_app _ _ _ Hk), (Split_no_sep _ _ Hv).
  rewrite (Split_app _ _ _ Hn), (Split_no_sep _ _ Hd).
  destruct (defined !! namespace) as [tags|]; simpl; [done|].
  by rewrite insert_insert_eq.
Qed.

Lemma parseTag_segments key value maps :
  GoStrings.Count key "="%char = O -> GoStrings.Count value "="%char = O ->
  (2 <= GoStrings.Count key "."%char)%nat ->
  parseTag (key +:+ String "="%char value) maps
  = Err (tagFormatError (key +:+ String "="%char value)).
Proof.
  intros Hk Hv Hd. unfold parseTag. destruct maps as [defined freeform].
  rewrite (Split_app _ _ _ Hk), (Split_no_sep _ _ Hv).
  pose proof (Split_length "."%char key) as Hlen.
  destruct (GoStrings.Split key "."%char) as [|a [|b [|c l]]]; simpl in Hlen;
    try done; lia.
Qed.

Lemma tagKey_app key value :
  GoStrings.Count key "="%char = O ->
  tagKey (key +:+ String "="%char value) = key.
Proof. intros Hk. unfold tagKey. by rewrite (Split_app _ _ _ Hk). Qed.

Lemma parseTag_wellFormed tag maps :
  wellFormedTag tag = true -> exists maps', parseTag tag maps = Ok maps'.
Proof.
  unfold wellFormedTag. intros [He Hd]%andb_prop.
  apply Nat.eqb_eq in He. apply Nat.leb_le in Hd.
  destruct (Split_pair _ _ He) as (key & value & -> & _ & Hk & Hv).
  rewrite (tagKey_app _ _ Hk) in Hd. destruct maps as [defined freeform].
  destruct (GoStrings.Count key "."%char) as [|n] eqn:Hn.
  - rewrite parseTag_freeform by done. eauto.
  - assert (n = O) as -> by lia.
    destruct (Split_pair _ _ Hn) as (ns & k & -> & _ & Hns & Hkk).
    rewrite parseTag_defined by done. eauto.
Qed.

Lemma parseTag_illFormed tag maps :
  wellFormedTag tag = false -> parseTag tag maps = Err (tagFormatError tag).
Proof.
  unfold wellFormedTag. intros Hwf.
  destruct (Nat.eqb_spec (GoStrings.Count tag "="%char) 1) as [He|He];
    [|by apply parseTag_equals_count].
  simpl in Hwf. apply Nat.leb_gt in Hwf.
  destruct (Split_pair _ _ He) as (key & value & -> & _ & Hk & Hv).
  rewrite (tagKey_app _ _ Hk) in Hwf. apply parseTag_segments; [done..|lia].
Qed.

(** ** A whole specification *)

Lemma parseTagList_wellFormed tags maps :
  Forall (fun tag => wellFormedTag tag = true) tags ->
  exists maps', parseTagList tags maps = Ok maps'.
Proof.
  intros Hall. revert maps.
  induction Hall as [|tag tags Htag _ IH]; intros maps; simpl; [eauto|].
  destruct (parseTag_wellFormed tag maps Htag) as [maps' ->]. apply IH.
Qed.

Lemma parseTagList_first_illFormed good bad rest maps :
  Forall (fun tag => wellFormedTag tag = true) good ->
  wellFormedTag bad = false ->
  parseTagList (good ++ bad :: rest) maps = Err (tagFormatError bad).
Proof.
  intros Hall Hbad. revert maps.
  induction Hall as [|tag tags Htag _ IH]; intros maps; simpl.
  - by rewrite (parseTag_illFormed bad maps Hbad).
  - destruct (parseTag_wellFormed tag maps Htag) as [maps' ->]. apply IH.
Qed.

Lemma parseTagList_singleton tag maps :
  parseTagList [tag] maps = parseTag tag maps.
Proof. cbn [parseTagList]. by destruct (parseTag tag maps). Qed.

Lemma parseTag_no_panic tag maps msg : parseTag tag maps <> Panic msg.
Proof.
  destruct (wellFormedTag tag) eqn:Hwf.
  - by destruct (parseTag_wellFormed tag maps Hwf) as [maps' ->].
  - by rewrite (parseTag_illFormed tag maps Hwf).
Qed.

Lemma parseTagList_no_panic tags maps msg : parseTagList tags maps <> Panic msg.
Proof.
  revert maps. induction tags as [|tag tags IH]; intros maps; simpl; [done|].
  destruct (parseTag tag maps) as [maps'| |msg'] eqn:Htag; simpl; [apply IH|done|].
  by apply parseTag_no_panic in Htag.
Qed.

Lemma parseTags_no_panic tagStr msg : parseTags tagStr <> Panic msg.
Proof.
  unfold parseTags. destruct (String.eqb tagStr EmptyString); [done|].
  apply parseTagList_no_panic.
Qed.

Lemma parseTags_nonempty tagStr :
  tagStr <> EmptyString ->
  parseTags tagStr = parseTagList (GoStrings.Split tagStr ","%char) (∅, ∅).
Proof.
  intros Hne. unfold parseTags.
  by destruct (String.eqb_spec tagStr EmptyString).
Qed.

(** ** [parseTags] against the rules of the specification *)

Lemma beforeFirst_app sep k v :
  GoStrings.Count k sep = O -> beforeFirst sep (k +:+ String sep v) = k.
Proof.
  induction k as [|c k IH]; simpl.
  - intros _. by rewrite Ascii.eqb_refl.
  - destruct (Ascii.eqb c sep); [discriminate|]. intros Hk. by rewrite IH.
Qed.

Lemma afterFirst_app sep k v :
  GoStrings.Count k sep = O -> afterFirst sep (k +:+ String sep v) = v.
Proof.
  induction k as [|c k IH]; simpl.
  - intros _. by rewrite Ascii.eqb_refl.
  - destruct (Ascii.eqb c sep); [discriminate|]. exact IH.
Qed.

Lemma applyPiece_freeform key value maps :
  GoStrings.Count key "="%char = O -> GoStrings.Count key "."%char = O ->
  applyPiece (key +:+ String "="%char value) maps
  = (maps.1, <[key := value]> maps.2).
Proof.
  intros Hk Hd. unfold applyPiece.
  by rewrite (beforeFirst_app _ _ _ Hk), (afterFirst_app _ _ _ Hk), Hd.
Qed.

Lemma applyPiece_defined namespace name value maps :
  GoStrings.Count (namespace +:+ String "."%char name) "="%char = O ->
  GoStrings.Count namespace "."%char = O ->
  applyPiece ((namespace +:+ String "."%char name) +:+ String "="%char value) maps
  = (<[namespace := <[name := value]> (default ∅ (maps.1 !! namespace))]> maps.1,
     maps.2).
Proof.
  intros Hk Hn. unfold applyPiece.
  rewrite (beforeFirst_app _ _ _ Hk), (afterFirst_app _ _ _ Hk).
  rewrite (beforeFirst_app _ _ _ Hn), (afterFirst_app _ _ _ Hn).
  rewrite Count_app, Hn. simpl. done.
Qed.

Lemma parseTag_applyPiece tag maps :
  wellFormedTag tag = true -> parseTag tag maps = Ok (applyPiece tag maps).
Proof.
  unfold wellFormedTag. intros [He Hd]%andb_prop.
  apply Nat.eqb_eq in He. apply Nat.leb_le in Hd.
  destruct (Split_pair _ _ He) as (key & value & -> & _ & Hk & Hv).
  rewrite (tagKey_app _ _ Hk) in Hd. destruct maps as [defined freeform].
  destruct (GoStrings.Count key "."%char) as [|n] eqn:Hn.
  - by rewrite parseTag_freeform, applyPiece_freeform.
  - assert (n = O) as -> by lia.
    destruct (Split_pair _ _ Hn) as (ns & k & -> & _ & Hns & Hkk).
    by rewrite parseTag_defined, applyPiece_defined.
Qed.

Lemma parseTagList_spec pieces maps :
  parseTagList pieces maps
  = match List.find (fun piece => negb (wellFormedTag piece)) pieces with
    | Some bad => Err (tagFormatError bad)
    | None => Ok (fold_left (fun maps piece => applyPiece piece maps) pieces maps)
    end.
Proof.
  revert maps. induction pieces as [|piece pieces IH]; intros maps; [done|].
  cbn [parseTagList List.find fold_left].
  destruct (wellFormedTag piece) eqn:Hwf; simpl.
  - rewrite (parseTag_applyPiece _ _ Hwf). apply IH.
  - by rewrite (parseTag_illFormed _ _ Hwf).
Qed.

Lemma parseTags_spec tagStr : parseTags tagStr = parseTagsSpec tagStr.
Proof.
  unfold parseTags, parseTagsSpec.
  destruct (String.eqb tagStr EmptyString); [done|]. apply parseTagList_spec.
Qed.

Lemma find_illFormed_none pieces :
  Forall (fun tag => wellFormedTag tag = true) pieces ->
  List.find (fun piece => negb (wellFormedTag piece)) pieces = None.
Proof.
  induction 1 as [|piece pieces Hwf _ IH]; [done|].
  cbn [List.find]. by rewrite Hwf.
Qed.

Section ParsingRules.

Context `{UnicodeTables}.

(** C3 (as amended): [parseTags] follows the parsing rules of the
    specification, [parseTagsSpec]. The empty specification gives two empty
    maps and no error. A non-empty one is split on commas; the first piece
    that does not hold exactly one [=], or whose key has more than two
    segments, is reported by the format error; without such a piece the
    pieces are applied in order, a key of one segment as a free-form tag
    and a key of two segments as a defined tag under the first segment. The
    message of the format error is its fixed text followed by the piece as
    [%q] writes it, between double quotes: verbatim when the piece is valid
    UTF-8 made of printable characters other than the double quote and the
    backslash, and with Go's escapes otherwise. *)
Theorem parseTags_rules :
  parseTags EmptyString = Ok (∅, ∅) /\
  (forall tagStr, parseTags tagStr = parseTagsSpec tagStr) /\
  (forall tagStr,
     tagStr <> EmptyString ->
     Forall (fun tag => wellFormedTag tag = true) (GoStrings.Split tagStr ","%char) ->
     parseTags tagStr
     = Ok (fold_left (fun maps piece => applyPiece piece maps)
             (GoStrings.Split tagStr ","%char) (∅, ∅))) /\
  (forall tagStr good bad rest,
     tagStr <> EmptyString ->
     GoStrings.Split tagStr ","%char = good ++ bad :: rest ->
     Forall (fun tag => wellFormedTag tag = true) good ->
     wellFormedTag bad = false ->
     parseTags tagStr = Err (tagFormatError bad)) /\
  (forall key value maps,
     GoStrings.Count key "="%char = O ->
     (GoStrings.Count key "."%char = O ->
      applyPiece (key +:+ String "="%char value) maps
      = (maps.1, <[key := value]> maps.2)) /\
     (forall namespace name,
        key = namespace +:+ String "."%char name ->
        GoStrings.Count namespace "."%char = O ->
        applyPiece (key +:+ String "="%char value) maps
        = (<[namespace := <[name := value]> (default ∅ (maps.1 !! namespace))]>
             maps.1, maps.2))) /\
  (forall tag maps, GoStrings.Count tag "="%char <> 1%nat ->
     parseTag tag maps = Err (tagFormatError tag)) /\
  (forall tag,
     errorMessage (tagFormatError tag)
     = tagFormatPrefix +:+ GoStrings.Quote isPrintWide tag /\
     GoStrings.Contains (errorMessage (tagFormatError tag))
       (GoStrings.Quote isPrintWide tag) = true /\
     (keptByQuote tag = true ->
      GoStrings.Contains (errorMessage (tagFormatError tag)) tag = true)) /\
  (forall key value defined freeform,
     GoStrings.Count key "="%char = O -> GoStrings.Count value "="%char = O ->
     (GoStrings.Count key "."%char = O ->
      parseTag (key +:+ String "="%char value) (defined, freeform)
      = Ok (defined, <[key := value]> freeform)) /\
     (forall namespace k,
        key = namespace +:+ String "."%char k ->
        GoStrings.Count namespace "."%char = O -> GoStrings.Count k "."%char = O ->
        parseTag (key +:+ String "="%char value) (defined, freeform)
        = Ok (<[namespace := <[k := value]> (default ∅ (defined !! namespace))]>
                defined, freeform)) /\
     ((2 <= GoStrings.Count key "."%char)%nat ->
      parseTag (key +:+ String "="%char value) (defined, freeform)
      = Err (tagFormatError (key +:+ String "="%char value)))).
Proof.
  split; [done|]. split; [apply parseTags_spec|]. split.
  { intros tagStr Hne Hall. rewrite parseTags_spec. unfold parseTagsSpec.
    destruct (String.eqb_spec tagStr EmptyString); [done|].
    cbn zeta. by rewrite (find_illFormed_none _ Hall). }
  split.
  { intros tagStr good bad rest Hne Hsplit Hgood Hbad.
    rewrite (parseTags_nonempty _ Hne), Hsplit.
    by apply parseTagList_first_illFormed. }
  split.
  { intros key value maps Hk. split.
    - intros Hd. by apply applyPiece_freeform.
    - intros namespace name -> Hn. by apply applyPiece_defined. }
  split; [apply parseTag_equals_count|]. split.
  { intros tag. destruct (tagFormatError_quoted tag) as [Hm Hq].
    split; [done|]. split; [done|]. apply tagFormatError_kept. }
  intros key value defined freeform Hk Hv. split; [|split].
  - intros Hd. by apply parseTag_freeform.
  - intros namespace k -> Hn Hd. by apply parseTag_defined.
  - intros Hd. by apply parseTag_segments.
Qed.

End ParsingRules.

Lemma parseTags_rules_witness :
  parseTags "a=1,b=2=3,c" = Err (tagFormatError "b=2=3") /\
  GoStrings.Contains (@errorMessage Sample.tables (tagFormatError "b=2=3")) "b=2=3"
  = true /\
  parseTags "a=1,ns.b=2,a=3"
  = Ok ({[ "ns" := {[ "b" := "2" ]} ]}, {[ "a" := "3" ]}).
Proof.
  destruct (@parseTags_rules Sample.tables)
    as (_ & _ & Hok & Hbad & _ & _ & Hmsg & _).
  split; [|split].
  - apply (Hbad "a=1,b=2=3,c" ["a=1"] "b=2=3" ["c"]).
    + discriminate.
    + reflexivity.
    + repeat constructor.
    + reflexivity.
  - destruct (Hmsg "b=2=3") as (_ & _ & Hkept). apply Hkept. reflexivity.
  - rewrite (Hok "a=1,ns.b=2,a=3"); [by vm_compute|discriminate|].
    by repeat constructor.
Defined.

(** C3 (as stated) fails for a piece that [%q] escapes: the message holds
    [a\"b], in which the piece [a"b] does not occur, whatever Go's table of
    printable runes holds. *)
Lemma parseTags_message_not_verbatim :
  let piece := String "a" (String GoStrings.dquote "b") in
  GoStrings.Count piece "="%char = O /\
  exists e, parseTags piece = Err e /\
            forall tables : UnicodeTables,
              GoStrings.Contains (@errorMessage tables e) piece = false.
Proof.
  split; [reflexivity|]. eexists. split; [reflexivity|].
  intros tables. reflexivity.
Qed.

(** C10: [parseTags] checks no namespace, key or value for emptiness. A
    piece [=v] is a free-form tag with the empty key, a piece [.k=v] is a
    defined tag under the empty namespace, and a piece is rejected exactly
    when it breaks the segment-count rules. *)
Theorem parseTags_no_emptiness_check :
  (forall v,
     GoStrings.Count v "="%char = O -> GoStrings.Count v ","%char = O ->
     parseTags (String "="%char v) = Ok (∅, {[ EmptyString := v ]})) /\
  (forall k v,
     GoStrings.Count k "."%char = O -> GoStrings.Count k "="%char = O ->
     GoStrings.Count k ","%char = O ->
     GoStrings.Count v "="%char = O -> GoStrings.Count v ","%char = O ->
     parseTags (String "."%char k +:+ String "="%char v)
     = Ok ({[ EmptyString := {[ k := v ]} ]}, ∅)) /\
  (forall tag maps,
     (exists e, parseTag tag maps = Err e) <-> wellFormedTag tag = false).
Proof.
  split; [|split].
  - intros v Hv Hc. rewrite parseTags_nonempty by done.
    rewrite Split_no_sep by (simpl; by rewrite Hc).
    rewrite parseTagList_singleton.
    change (String "="%char v) with (EmptyString +:+ String "="%char v).
    by rewrite parseTag_freeform.
  - intros k v Hkd Hke Hkc Hve Hvc. rewrite parseTags_nonempty by done.
    rewrite Split_no_sep; cycle 1.
    { change (String "."%char k +:+ String "="%char v)
        with (String "."%char (k +:+ String "="%char v)).
      simpl. rewrite Count_app. simpl. lia. }
    rewrite parseTagList_singleton.
    change (String "."%char k) with (EmptyString +:+ String "."%char k).
    rewrite parseTag_defined by done. done.
  - intros tag maps. split.
    + intros [e He]. destruct (wellFormedTag tag) eqn:Hwf; [|done].
      destruct (parseTag_wellFormed tag maps Hwf) as [maps' Hok]. congruence.
    + intros Hwf. eexists. by apply parseTag_illFormed.
Qed.

Lemma parseTags_no_emptiness_check_witness :
  parseTags "=v" = Ok (∅, {[ EmptyString := "v" ]}) /\
  parseTags ".k=v" = Ok ({[ EmptyString := {[ "k" := "v" ]} ]}, ∅) /\
  (exists e, parseTag "a.b.c=v" (∅, ∅) = Err e).
Proof.
  destruct parseTags_no_emptiness_check as (Hfree & Hdef & Hiff).
  split; [|split].
  - apply (Hfree "v"); reflexivity.
  - apply (Hdef "k" "v"); reflexivity.
  - apply Hiff. reflexivity.
Defined.

(** ** Merging the two tag sources *)

Lemma mergeFreeformTags_union (freeformTags defaultFreeformTags : FreeformTags) :
  mergeFreeformTags freeformTags defaultFreeformTags
  = freeformTags ∪ defaultFreeformTags.
Proof.
  unfold mergeFreeformTags.
  apply (map_fold_weak_ind
           (fun r (m : FreeformTags) => r = m ∪ defaultFreeformTags)).
  - by rewrite (left_id_L ∅ (∪)).
  - intros tag value m r _ ->. by rewrite insert_union_l.
Qed.

Lemma mergeNamespace_alter namespace (tags : gmap string string)
    (defaultDefinedTags : DefinedTags) :
  mergeNamespace namespace tags defaultDefinedTags
  = alter (fun defaults => tags ∪ defaults) namespace defaultDefinedTags.
Proof.
  unfold mergeNamespace.
  apply (map_fold_weak_ind
           (fun r (m : gmap string string) =>
              r = alter (fun defaults => m ∪ defaults) namespace
                    defaultDefinedTags)).
  - apply map_eq. intros ns.
    destruct (decide (namespace = ns)) as [<-|Hne];
      [rewrite lookup_alter_eq | by rewrite lookup_alter_ne].
    destruct (defaultDefinedTags !! namespace); simpl; [|done].
    by rewrite (left_id_L ∅ (∪)).
  - intros tag value m r _ ->. apply map_eq. intros ns.
    destruct (decide (namespace = ns)) as [<-|Hne];
      [rewrite !lookup_alter_eq | by rewrite !lookup_alter_ne].
    destruct (defaultDefinedTags !! namespace); simpl; [|done].
    by rewrite insert_union_l.
Qed.

Lemma mergeDefinedTags_lookup (definedTags defaultDefinedTags : DefinedTags)
    namespace :
  mergeDefinedTags definedTags defaultDefinedTags !! namespace
  = match definedTags !! namespace with
    | Some tags => Some (tags ∪ default ∅ (defaultDefinedTags !! namespace))
    | None => defaultDefinedTags !! namespace
    end.
Proof.
  revert namespace. unfold mergeDefinedTags.
  apply (map_fold_weak_ind
           (fun r (m : DefinedTags) =>
              forall namespace,
                r !! namespace
                = match m !! namespace with
                  | Some tags =>
                      Some (tags ∪ default ∅ (defaultDefinedTags !! namespace))
                  | None => defaultDefinedTags !! namespace
                  end)).
  - intros namespace. by rewrite lookup_empty.
  - intros ns tags m r Hfresh IH namespace.
    rewrite mergeNamespace_alter.
    pose proof (IH ns) as Hns. rewrite Hfresh in Hns.
    destruct (decide (ns = namespace)) as [<-|Hne].
    + rewrite lookup_alter_eq, lookup_insert_eq.
      destruct (r !! ns) as [t|] eqn:Hr.
      * rewrite Hr. simpl. by rewrite <- Hns.
      * rewrite lookup_insert_eq. simpl. by rewrite <- Hns.
    + rewrite lookup_alter_ne, lookup_insert_ne by done.
      destruct (r !! ns); [apply IH|].
      rewrite lookup_insert_ne by done. apply IH.
Qed.

Lemma getTags_ok env annotations dd df d f :
  parseTags (Getenv env defaultTagsEnvVar) = Ok (dd, df) ->
  parseTags (default EmptyString (annotations !! ociTagAnnotation)) = Ok (d, f) ->
  getTags env annotations = Ok (mergeDefinedTags d dd, mergeFreeformTags f df).
Proof. intros Hd Ha. unfold getTags. by rewrite Hd, Ha. Qed.

(** C2: [getTags] starts from the parsed default tags and lays the parsed
    per-request tags over them. A per-request namespace is present in the
    result, holding the per-request value of each of its keys and, for
    every other key, what the defaults hold in that namespace (nothing when
    the defaults lack the namespace); a namespace only the defaults have is
    kept as it is. A free-form key has its per-request value when there is
    one, and its default value otherwise. *)
Theorem getTags_merge (env annotations : gmap string string)
    (dd d : DefinedTags) (df f : FreeformTags) :
  parseTags (Getenv env defaultTagsEnvVar) = Ok (dd, df) ->
  parseTags (default EmptyString (annotations !! ociTagAnnotation)) = Ok (d, f) ->
  exists defined freeform,
    getTags env annotations = Ok (defined, freeform) /\
    (forall namespace tags,
       d !! namespace = Some tags ->
       exists merged,
         defined !! namespace = Some merged /\
         forall key,
           merged !! key
           = match tags !! key with
             | Some value => Some value
             | None => default ∅ (dd !! namespace) !! key
             end) /\
    (forall namespace,
       d !! namespace = None -> defined !! namespace = dd !! namespace) /\
    (forall key,
       freeform !! key
       = match f !! key with
         | Some value => Some value
         | None => df !! key
         end).
Proof.
  intros Hd Ha. eexists _, _. split; [by apply getTags_ok|].
  split; [|split].
  - intros namespace tags Hns. eexists. rewrite mergeDefinedTags_lookup, Hns.
    split; [done|]. intros key. rewrite lookup_union.
    destruct (tags !! key), (default ∅ (dd !! namespace) !! key); done.
  - intros namespace Hns. by rewrite mergeDefinedTags_lookup, Hns.
  - intros key. rewrite mergeFreeformTags_union, lookup_union.
    destruct (f !! key), (df !! key); done.
Qed.

(** The merge example of the specification, run through [getTags]. *)
Lemma getTags_merge_witness :
  exists defined freeform,
    getTags {[ defaultTagsEnvVar := "a=1,ns.x=9" ]}
            {[ ociTagAnnotation := "a=2,c=3,ns.x=10,ns.y=5" ]}
    = Ok (defined, freeform) /\
    defined !! "ns" = Some {[ "x" := "10"; "y" := "5" ]} /\
    freeform = {[ "a" := "2"; "c" := "3" ]}.
Proof.
  destruct (getTags_merge {[ defaultTagsEnvVar := "a=1,ns.x=9" ]}
              {[ ociTagAnnotation := "a=2,c=3,ns.x=10,ns.y=5" ]}
              {[ "ns" := {[ "x" := "9" ]} ]} {[ "ns" := {[ "x" := "10"; "y" := "5" ]} ]}
              {[ "a" := "1" ]} {[ "a" := "2"; "c" := "3" ]})
    as (defined & freeform & Hget & _); [by vm_compute | by vm_compute |].
  exists defined, freeform. split; [exact Hget|].
  vm_compute in Hget. injection Hget as <- <-. split; by vm_compute.
Defined.

(** ** [Provision] and [Delete] *)

Arguments roundUpSize : simpl never.
Arguments getTags : simpl never.
Arguments checked : simpl never.
Arguments Getenv : simpl never.
Arguments LookupEnv : simpl never.

Ltac run_cloud :=
  unfold mbind, mret, Cloud_bind, Cloud_ret, Result_bind, Result_ret,
    liftResult, callCreateVolume, callDeleteVolume, callMetadataGet;
  cbn.

Section ProvisionerProperties.

Context {Quantity : Type} `{QuantityOps Quantity} `{PluginNames}.

Implicit Types (block : blockProvisioner Quantity)
  (options : VolumeOptions Quantity) (volume : PersistentVolume Quantity)
  (env : gmap string string) (tr : list CloudCall).

Lemma checkAccessModes_cases (modes : list string) :
  (checkAccessModes modes = Ok tt /\ Forall (fun m => m = ReadWriteOnce) modes)
  \/ exists m, In m modes /\ m <> ReadWriteOnce /\
               checkAccessModes modes = Err (accessModeError m).
Proof.
  induction modes as [|m modes IH]; simpl; [by left|].
  destruct (String.eqb_spec m ReadWriteOnce) as [->|Hne]; simpl.
  - destruct IH as [[Hok Hall]|(m' & Hin & Hne & Herr)].
    + left. split; [done|]. by constructor.
    + right. exists m'. auto.
  - right. exists m. auto.
Qed.

(** The size and the capacity after the rounding step of [Provision]. *)
Lemma billing_step block (capacity : Quantity) size0 :
  roundUpSize (Value capacity) MiB = Some size0 ->
  exists size,
    (if volumeRoundingEnabled block && (Cmp (minVolumeSize block) capacity =? 1)
     then match checked (roundUpSize (Value (minVolumeSize block)) MiB) with
          | Ok a => Ok (a, minVolumeSize block)
          | Err e => Err e
          | Panic msg => Panic msg
          end
     else Ok (size0, capacity)) = Ok (size, billedCapacity block capacity)
    /\ roundUpSize (Value (billedCapacity block capacity)) MiB = Some size.
Proof.
  intros Hsize0.
  destruct (roundUpSize_MiB_total (Value (minVolumeSize block))) as [size1 Hsize1].
  unfold billedCapacity.
  destruct (volumeRoundingEnabled block && (Cmp (minVolumeSize block) capacity =? 1)).
  - exists size1. by rewrite Hsize1.
  - by exists size0.
Qed.

Lemma getTags_no_panic env (annotations : gmap string string) msg :
  getTags env annotations <> Panic msg.
Proof.
  unfold getTags. intros Htags.
  destruct (parseTags (Getenv env defaultTagsEnvVar)) as [[dd df]|e|msg'] eqn:Hd;
    cbn in Htags; [|done|by apply parseTags_no_panic in Hd].
  destruct (parseTags (default EmptyString (annotations !! ociTagAnnotation)))
    as [[d f]|e|msg'] eqn:Ha; cbn in Htags;
    [done|done|by apply parseTags_no_panic in Ha].
Qed.

Lemma Provision_access_error block env options ad tr e :
  checkAccessModes (AccessModes (PVC options)) = Err e ->
  Provision block env options ad tr = (Err e, tr).
Proof. intros Hm. unfold Provision. run_cloud. by rewrite Hm. Qed.

Lemma Provision_no_capacity block env options ad tr :
  checkAccessModes (AccessModes (PVC options)) = Ok tt ->
  Requests (PVC options) !! ResourceStorage = None ->
  Provision block env options ad tr
  = (Err (errorString "could not determine volume size for PVC"), tr).
Proof. intros Hm Hc. unfold Provision. run_cloud. by rewrite Hm, Hc. Qed.

Lemma Provision_tags_error block env options ad tr capacity e :
  checkAccessModes (AccessModes (PVC options)) = Ok tt ->
  Requests (PVC options) !! ResourceStorage = Some capacity ->
  getTags env (Annotations (PVC options)) = Err e ->
  Provision block env options ad tr = (Err e, tr).
Proof.
  intros Hm Hc Ht. unfold Provision. run_cloud. rewrite Hm, Hc.
  destruct (roundUpSize_MiB_total (Value capacity)) as [size0 Hsize0].
  rewrite Hsize0. change (checked (Some size0)) with (Ok size0). cbn.
  destruct (billing_step block capacity size0 Hsize0) as (size & -> & _).
  by rewrite Ht.
Qed.

(** A run of [Provision] either stops before any remote call, without a
    descriptor, or sends exactly one create-volume request, possibly
    followed by a metadata query. *)
Lemma Provision_inv block env options ad tr res tr' :
  Provision block env options ad tr = (res, tr') ->
  (tr' = tr /\ exists e, res = Err e)
  \/ exists capacity size definedTags freeformTags,
       checkAccessModes (AccessModes (PVC options)) = Ok tt /\
       Requests (PVC options) !! ResourceStorage = Some capacity /\
       roundUpSize (Value (billedCapacity block capacity)) MiB = Some size /\
       getTags env (Annotations (PVC options)) = Ok (definedTags, freeformTags) /\
       let details := requestOf block env options ad size definedTags freeformTags in
       (tr' = tr ++ [CreateVolumeCall details]
        \/ tr' = tr ++ [CreateVolumeCall details; MetadataGetCall]) /\
       forall pv, res = Ok pv ->
         pv_Capacity pv = {[ ResourceStorage := billedCapacity block capacity ]}.
Proof.
  unfold Provision. run_cloud.
  destruct (checkAccessModes_cases (AccessModes (PVC options)))
    as [[-> _]|(m & _ & _ & ->)]; [|intros [= <- <-]; left; eauto].
  destruct (Requests (PVC options) !! ResourceStorage) as [capacity|] eqn:Hcap;
    [|intros [= <- <-]; left; eauto].
  destruct (roundUpSize_MiB_total (Value capacity)) as [size0 Hsize0].
  rewrite Hsize0. change (checked (Some size0)) with (Ok size0). cbn.
  destruct (billing_step block capacity size0 Hsize0) as (size & -> & Hsize).
  destruct (getTags env (Annotations (PVC options))) as [[definedTags freeformTags]|e|msg]
    eqn:Htags; [|intros [= <- <-]; left; eauto|].
  2: { by apply getTags_no_panic in Htags. }
  intros Hrun. right. exists capacity, size, definedTags, freeformTags.
  split; [done|]. split; [done|]. split; [done|]. split; [done|].
  assert (Hreq :
    match Annotations (PVC options) !! ociVolumeBackupID with
    | Some value =>
        withSource
          (withTags
             {| AvailabilityDomain := ad_Name ad;
                CompartmentId := CompartmentOCID (client block);
                DisplayName := Getenv env volumePrefixEnvVarName +:+ Name (PVC options);
                SizeInMBs := size; DefinedTagsOf := ∅; FreeformTagsOf := ∅;
                SourceDetails := None |} definedTags freeformTags) value
    | None =>
        withTags
          {| AvailabilityDomain := ad_Name ad;
             CompartmentId := CompartmentOCID (client block);
             DisplayName := Getenv env volumePrefixEnvVarName +:+ Name (PVC options);
             SizeInMBs := size; DefinedTagsOf := ∅; FreeformTagsOf := ∅;
             SourceDetails := None |} definedTags freeformTags
    end = requestOf block env options ad size definedTags freeformTags).
  { unfold requestOf. by destruct (Annotations (PVC options) !! ociVolumeBackupID). }
  rewrite Hreq in Hrun. clear Hreq.
  set (details := requestOf block env options ad size definedTags freeformTags) in *.
  destruct (CreateVolume (client block) tr details) as [newVolume [e|]];
    [injection Hrun as <- <-; split; [by left|done]|].
  unfold LookupEnv in Hrun.
  destruct (env !! "OCI_SHORT_REGION") as [region|].
  - injection Hrun as <- <-. split; [by left|]. by intros pv [= <-].
  - destruct (Get (metadata block) (tr ++ [CreateVolumeCall details])) as [md [e|]];
      injection Hrun as <- <-; rewrite <- app_assoc; simpl.
    + split; [by right|done].
    + split; [by right|]. by intros pv [= <-].
Qed.

(** When the preconditions pass, the tags parse, the create-volume call
    succeeds and the region is configured, [Provision] sends one request and
    returns the descriptor of the new volume. *)
Lemma Provision_success block env options ad tr capacity size
    definedTags freeformTags newVolume region :
  checkAccessModes (AccessModes (PVC options)) = Ok tt ->
  Requests (PVC options) !! ResourceStorage = Some capacity ->
  getTags env (Annotations (PVC options)) = Ok (definedTags, freeformTags) ->
  roundUpSize (Value (billedCapacity block capacity)) MiB = Some size ->
  CreateVolume (client block) tr
    (requestOf block env options ad size definedTags freeformTags)
  = (newVolume, None) ->
  LookupEnv env "OCI_SHORT_REGION" = Some region ->
  Provision block env options ad tr
  = (Ok {| pv_Name := Volume_Id newVolume;
           pv_Annotations := {[ ociVolumeID := Volume_Id newVolume ]};
           pv_Labels :=
             <[LabelZoneFailureDomain := ad_Name ad]>
               (<[LabelZoneRegion := region]> ∅);
           pv_ReclaimPolicy := PersistentVolumeReclaimPolicy options;
           pv_AccessModes := AccessModes (PVC options);
           pv_Capacity := {[ ResourceStorage := billedCapacity block capacity ]};
           pv_FlexVolume :=
             {| Driver := OCIProvisionerName; FSType := resolveFSType options |} |},
     tr ++ [CreateVolumeCall
              (requestOf block env options ad size definedTags freeformTags)]).
Proof.
  intros Hm Hc Ht Hsize Hcreate Hregion. unfold Provision. run_cloud.
  rewrite Hm, Hc.
  destruct (roundUpSize_MiB_total (Value capacity)) as [size0 Hsize0].
  rewrite Hsize0. change (checked (Some size0)) with (Ok size0). cbn.
  destruct (billing_step block capacity size0 Hsize0) as (size' & -> & Hsize').
  rewrite Hsize in Hsize'. injection Hsize' as <-. rewrite Ht.
  replace (match Annotations (PVC options) !! ociVolumeBackupID with
           | Some value => _
           | None => _
           end)
    with (requestOf block env options ad size definedTags freeformTags)
    by (unfold requestOf; by destruct (Annotations (PVC options) !! ociVolumeBackupID)).
  by rewrite Hcreate, Hregion.
Qed.

(** Every create-volume request of a run carries the display name built
    from the environment variable as it is read. *)
Lemma Provision_display_name block env options ad res calls details :
  Provision block env options ad [] = (res, calls) ->
  In (CreateVolumeCall details) calls ->
  DisplayName details
  = Getenv env volumePrefixEnvVarName +:+ Name (PVC options).
Proof.
  intros Hrun Hin. apply Provision_inv in Hrun
    as [[-> _]|(capacity & size & d & f & _ & _ & _ & _ & Hcalls & _)];
    [done|].
  simpl in Hcalls. destruct Hcalls as [-> | ->]; simpl in Hin;
    destruct Hin as [[= <-]|Hin]; try done.
  by destruct Hin.
Qed.

(** C1: with rounding enabled and a request that the floor compares
    greater than ([Cmp] gives 1), the size sent in the create-volume
    request is computed from the floor and the descriptor records the
    floor as its capacity; a request equal to the floor ([Cmp] gives 0)
    and any request while rounding is disabled are billed and recorded
    as they are. *)
Theorem Provision_minimum_size block env options ad capacity res calls :
  Requests (PVC options) !! ResourceStorage = Some capacity ->
  Provision block env options ad [] = (res, calls) ->
  exists billed,
    (volumeRoundingEnabled block = true ->
     Cmp (minVolumeSize block) capacity = 1 -> billed = minVolumeSize block) /\
    (Cmp (minVolumeSize block) capacity = 0 -> billed = capacity) /\
    (volumeRoundingEnabled block = false -> billed = capacity) /\
    (forall details,
       In (CreateVolumeCall details) calls ->
       roundUpSize (Value billed) MiB = Some (SizeInMBs details)) /\
    (forall pv, res = Ok pv -> pv_Capacity pv = {[ ResourceStorage := billed ]}).
Proof.
  intros Hcap Hrun. exists (billedCapacity block capacity).
  split; [|split; [|split]].
  - intros Hr Hc. unfold billedCapacity. by rewrite Hr, Hc.
  - intros Hc. unfold billedCapacity. rewrite Hc. by rewrite andb_false_r.
  - intros Hr. unfold billedCapacity. by rewrite Hr.
  - apply Provision_inv in Hrun
      as [[-> [e ->]]|(capacity' & size & d & f & _ & Hcap' & Hsize & _ & Hcalls & Hpv)].
    { split; [intros details []|intros pv [=]]. }
    rewrite Hcap in Hcap'. injection Hcap' as <-. split; [|exact Hpv].
    intros details Hin. simpl in Hcalls.
    destruct Hcalls as [-> | ->]; simpl in Hin;
      destruct Hin as [[= <-]|Hin]; try done.
    by destruct Hin.
Qed.

(** C5: [Provision] checks its preconditions first. A request with an
    access mode other than [ReadWriteOnce] ends in the access-mode error
    for such a mode, and a request without a storage quantity ends in an
    error, which is the missing-size error when the access modes pass; in
    both cases the trace of remote calls is left as it was, so that no
    create-volume call is made, and no descriptor is returned. *)
Theorem Provision_preconditions block env options ad tr :
  ((exists m, In m (AccessModes (PVC options)) /\ m <> ReadWriteOnce) ->
   exists m, In m (AccessModes (PVC options)) /\ m <> ReadWriteOnce /\
     Provision block env options ad tr = (Err (accessModeError m), tr)) /\
  (Requests (PVC options) !! ResourceStorage = None ->
   exists e, Provision block env options ad tr = (Err e, tr) /\
     (Forall (fun m => m = ReadWriteOnce) (AccessModes (PVC options)) ->
      e = errorString "could not determine volume size for PVC")).
Proof.
  destruct (checkAccessModes_cases (AccessModes (PVC options)))
    as [[Hok Hall]|(m & Hin & Hne & Herr)]; split.
  - intros (m & Hin & Hne). rewrite Forall_forall in Hall.
    destruct Hne. apply Hall. by apply list_elem_of_In.
  - intros Hcap. eexists. split; [by apply Provision_no_capacity|done].
  - intros _. exists m. split; [done|]. split; [done|].
    by apply Provision_access_error.
  - intros _. eexists. split; [by apply Provision_access_error|].
    intros Hall. rewrite Forall_forall in Hall.
    destruct Hne. apply Hall. by apply list_elem_of_In.
Qed.

(** C8: when the default tags or the per-request tags fail to parse,
    [getTags] returns that parse error and no maps, and [Provision] ends
    in an error, which is that parse error once the preconditions pass,
    with the trace of remote calls left as it was and no descriptor. *)
Theorem tag_error_aborts env (annotations : gmap string string) :
  (exists e, parseTags (Getenv env defaultTagsEnvVar) = Err e) \/
  (exists e, parseTags (default EmptyString (annotations !! ociTagAnnotation))
             = Err e) ->
  exists e,
    getTags env annotations = Err e /\
    (parseTags (Getenv env defaultTagsEnvVar) = Err e \/
     parseTags (default EmptyString (annotations !! ociTagAnnotation)) = Err e) /\
    forall block options ad tr,
      Annotations (PVC options) = annotations ->
      exists e', Provision block env options ad tr = (Err e', tr) /\
        (checkAccessModes (AccessModes (PVC options)) = Ok tt ->
         is_Some (Requests (PVC options) !! ResourceStorage) -> e' = e).
Proof.
  intros Hfail.
  assert (Hget : exists e, getTags env annotations = Err e /\
    (parseTags (Getenv env defaultTagsEnvVar) = Err e \/
     parseTags (default EmptyString (annotations !! ociTagAnnotation)) = Err e)).
  { unfold getTags.
    destruct (parseTags (Getenv env defaultTagsEnvVar)) as [[dd df]|e|msg] eqn:Hd.
    - destruct Hfail as [[e [=]]|[e He]]. rewrite He. cbn. eauto.
    - cbn. eauto.
    - by apply parseTags_no_panic in Hd. }
  destruct Hget as (e & Hget & Hwhich). exists e.
  split; [done|]. split; [done|].
  intros block options ad tr <-.
  destruct (checkAccessModes_cases (AccessModes (PVC options)))
    as [[Hok _]|(m & _ & _ & Herr)].
  - destruct (Requests (PVC options) !! ResourceStorage) as [capacity|] eqn:Hcap.
    + exists e. split; [by eapply Provision_tags_error|done].
    + eexists. split; [by apply Provision_no_capacity|].
      by intros _ [? [=]].
  - eexists. split; [by apply Provision_access_error|]. congruence.
Qed.

(** C6: once the identifier is found, [Delete] makes the delete-volume
    call; a response whose status is 404 makes it return no error,
    whatever error came with the response, and otherwise the error of the
    call, nil or not, is returned as it is. *)
Theorem Delete_not_found_is_success block volume tr volID response err :
  pv_Annotations volume !! ociVolumeID = Some volID ->
  DeleteVolume (client block) tr volID = (response, err) ->
  ((exists raw, RawResponse response = Some raw /\
                StatusCode raw = StatusNotFound) ->
   Delete block volume tr = (Ok tt, tr ++ [DeleteVolumeCall volID])) /\
  (~ (exists raw, RawResponse response = Some raw /\
                  StatusCode raw = StatusNotFound) ->
   Delete block volume tr
   = (match err with Some e => Err e | None => Ok tt end,
      tr ++ [DeleteVolumeCall volID])).
Proof.
  intros Hid Hcall. unfold Delete. rewrite Hid. run_cloud. rewrite Hcall.
  split.
  - intros (raw & -> & ->). done.
  - intros Hnot. destruct (RawResponse response) as [raw|] eqn:Hraw.
    + destruct (Z.eqb_spec (StatusCode raw) StatusNotFound) as [Heq|Hne].
      * destruct Hnot. eauto.
      * by destruct err.
    + by destruct err.
Qed.

(** C7: a descriptor without the [ociVolumeID] annotation makes [Delete]
    return its own missing-identifier error, which no collaborator error
    equals, and leaves the trace of remote calls as it was. *)
Theorem Delete_missing_identifier block volume tr :
  pv_Annotations volume !! ociVolumeID = None ->
  Delete block volume tr
  = (Err (errorString "volumeid annotation not found on PV"), tr) /\
  forall payload,
    errorString "volumeid annotation not found on PV" <> collaboratorError payload.
Proof. intros Hid. unfold Delete. rewrite Hid. by split. Qed.

End ProvisionerProperties.

(** ** The properties at the sample deployment *)

Section SampleRuns.

Import ByteQuantity Sample.

(** A 10 GiB claim against a 50 GiB floor with rounding on: the request
    asks for 51200 units and the descriptor records 50 GiB. *)
Lemma Provision_minimum_size_witness :
  exists pv details,
    Provision (provisioner okClient true) ∅
      (claim "pvc1" ∅ [ReadWriteOnce] {[ ResourceStorage := 10 * GiB ]}) ad1 []
    = (Ok pv, [CreateVolumeCall details; MetadataGetCall]) /\
    pv_Capacity pv = {[ ResourceStorage := 50 * GiB ]} /\
    roundUpSize (50 * GiB) MiB = Some (SizeInMBs details) /\
    SizeInMBs details = 51200.
Proof.
  eexists _, _. split; [by vm_compute|].
  edestruct (Provision_minimum_size (provisioner okClient true) ∅
               (claim "pvc1" ∅ [ReadWriteOnce] {[ ResourceStorage := 10 * GiB ]})
               ad1 (10 * GiB))
    as (billed & Hfloor & _ & _ & Hsize & Hcap);
    [by vm_compute | by vm_compute |].
  rewrite (Hfloor eq_refl eq_refl) in Hsize, Hcap.
  split; [by apply Hcap|]. split; [|done].
  apply Hsize. by left.
Defined.

(** The same claim with rounding off, and a claim of exactly the floor
    with rounding on, are billed as requested. *)
Example Provision_rounding_examples :
  (exists pv details,
     Provision (provisioner okClient false) ∅
       (claim "pvc1" ∅ [ReadWriteOnce] {[ ResourceStorage := 10 * GiB ]}) ad1 []
     = (Ok pv, [CreateVolumeCall details; MetadataGetCall]) /\
     pv_Capacity pv = {[ ResourceStorage := 10 * GiB ]} /\
     SizeInMBs details = 10240) /\
  (exists pv details,
     Provision (provisioner okClient true) ∅
       (claim "pvc1" ∅ [ReadWriteOnce] {[ ResourceStorage := 50 * GiB ]}) ad1 []
     = (Ok pv, [CreateVolumeCall details; MetadataGetCall]) /\
     pv_Capacity pv = {[ ResourceStorage := 50 * GiB ]} /\
     SizeInMBs details = 51200).
Proof. split; eexists _, _; (split; [by vm_compute|by split]). Qed.

(** C4 at the failing inputs: with the prefix [abc] the display name of
    the request is [abcpvc1], without the separator, and a prefix of two
    spaces is kept in front of the claim's name. *)
Theorem Provision_display_name_failing_input :
  (exists pv details,
     Provision (provisioner okClient false) {[ volumePrefixEnvVarName := "abc" ]}
       (claim "pvc1" ∅ [ReadWriteOnce] {[ ResourceStorage := 10 * GiB ]}) ad1 []
     = (Ok pv, [CreateVolumeCall details; MetadataGetCall]) /\
     DisplayName details = "abcpvc1" /\ DisplayName details <> "abc-pvc1") /\
  (exists pv details,
     Provision (provisioner okClient false) {[ volumePrefixEnvVarName := "  " ]}
       (claim "pvc1" ∅ [ReadWriteOnce] {[ ResourceStorage := 10 * GiB ]}) ad1 []
     = (Ok pv, [CreateVolumeCall details; MetadataGetCall]) /\
     DisplayName details = "  pvc1" /\ DisplayName details <> "pvc1").
Proof. split; eexists _, _; (split; [by vm_compute|by split]). Qed.

Lemma Provision_preconditions_witness :
  (exists m, m <> ReadWriteOnce /\
     Provision (provisioner okClient true) ∅
       (claim "pvc1" ∅ [ReadWriteOnce; "ReadWriteMany"]
          {[ ResourceStorage := 10 * GiB ]}) ad1 []
     = (Err (accessModeError m), [])) /\
  (exists e,
     Provision (provisioner okClient true) ∅
       (claim "pvc1" ∅ [ReadWriteOnce] ∅) ad1 [] = (Err e, []) /\
     e = errorString "could not determine volume size for PVC").
Proof.
  split.
  - destruct (Provision_preconditions (provisioner okClient true) ∅
                (claim "pvc1" ∅ [ReadWriteOnce; "ReadWriteMany"]
                   {[ ResourceStorage := 10 * GiB ]}) ad1 [])
      as [Hmode _].
    destruct Hmode as (m & _ & Hne & Hrun).
    + exists "ReadWriteMany". split; [simpl; auto|discriminate].
    + exists m. by split.
  - destruct (Provision_preconditions (provisioner okClient true) ∅
                (claim "pvc1" ∅ [ReadWriteOnce] ∅) ad1 [])
      as [_ Hcap].
    destruct Hcap as (e & Hrun & He); [reflexivity|].
    exists e. split; [done|]. apply He. by repeat constructor.
Defined.

Lemma tag_error_aborts_witness :
  exists e,
    getTags {[ defaultTagsEnvVar := "team=storage" ]}
      {[ ociTagAnnotation := "a=1=2" ]} = Err e /\
    e = tagFormatError "a=1=2" /\
    Provision (provisioner okClient true) {[ defaultTagsEnvVar := "team=storage" ]}
      (claim "pvc1" {[ ociTagAnnotation := "a=1=2" ]} [ReadWriteOnce]
         {[ ResourceStorage := 10 * GiB ]}) ad1 []
    = (Err e, []).
Proof.
  destruct (tag_error_aborts {[ defaultTagsEnvVar := "team=storage" ]}
              {[ ociTagAnnotation := "a=1=2" ]})
    as (e & Hget & Hwhich & Hrun).
  { right. eexists. by vm_compute. }
  exists e. split; [done|]. split.
  { vm_compute in Hget. by injection Hget as <-. }
  destruct (Hrun (provisioner okClient true)
              (claim "pvc1" {[ ociTagAnnotation := "a=1=2" ]} [ReadWriteOnce]
                 {[ ResourceStorage := 10 * GiB ]}) ad1 [] eq_refl)
    as (e' & Hprov & He').
  assert (e' = e) as -> by (apply He'; [done|by eexists]).
  exact Hprov.
Defined.

Lemma Delete_not_found_is_success_witness :
  Delete (provisioner goneClient true)
    (volume {[ ociVolumeID := "ocid1.volume.oc1.phx.sample" ]}) []
  = (Ok tt, [DeleteVolumeCall "ocid1.volume.oc1.phx.sample"]) /\
  Delete (provisioner failingClient true)
    (volume {[ ociVolumeID := "ocid1.volume.oc1.phx.sample" ]}) []
  = (Err (collaboratorError "InternalServerError"),
     [DeleteVolumeCall "ocid1.volume.oc1.phx.sample"]).
Proof.
  split.
  - eapply (Delete_not_found_is_success (provisioner goneClient true)
              (volume {[ ociVolumeID := "ocid1.volume.oc1.phx.sample" ]}) []);
      [reflexivity | reflexivity |].
    eexists. split; reflexivity.
  - eapply (Delete_not_found_is_success (provisioner failingClient true)
              (volume {[ ociVolumeID := "ocid1.volume.oc1.phx.sample" ]}) []
              "ocid1.volume.oc1.phx.sample" _
              (Some (collaboratorError "InternalServerError")));
      [reflexivity | reflexivity |].
    intros (raw & [= <-] & Hstatus). discriminate.
Defined.

Lemma Delete_missing_identifier_witness :
  Delete (provisioner okClient true) (volume ∅) []
  = (Err (errorString "volumeid annotation not found on PV"), []).
Proof.
  apply (Delete_missing_identifier (provisioner okClient true) (volume ∅) []).
  reflexivity.
Defined.

End SampleRuns.


(** * Further properties of the package *)

(** ** More on splitting *)

Lemma Split_app_pieces sep s t :
  GoStrings.Split (s +:+ String sep t) sep
  = GoStrings.Split s sep ++ GoStrings.Split t sep.
Proof.
  induction s as [|c s IH].
  - change (EmptyString +:+ String sep t) with (String sep t).
    cbn [GoStrings.Split]. by rewrite Ascii.eqb_refl.
  - change (String c s +:+ String sep t) with (String c (s +:+ String sep t)).
    cbn [GoStrings.Split]. rewrite IH.
    destruct (Ascii.eqb c sep); [done|].
    pose proof (Split_length sep s) as Hlen.
    by destruct (GoStrings.Split s sep).
Qed.

Lemma Split_pieces_no_sep sep s :
  Forall (fun piece => GoStrings.Count piece sep = O) (GoStrings.Split s sep).
Proof.
  induction s as [|c s IH]; cbn [GoStrings.Split]; [by repeat constructor|].
  destruct (Ascii.eqb c sep) eqn:Hc; [by constructor|].
  destruct (GoStrings.Split s sep) as [|piece pieces];
    [constructor; [simpl; by rewrite Hc|constructor]|].
  inversion IH as [|? ? Hpiece Hpieces]; subst.
  constructor; [|done]. simpl. by rewrite Hc.
Qed.

Lemma Count_app_zero sep k v :
  GoStrings.Count (k +:+ v) sep = O ->
  GoStrings.Count k sep = O /\ GoStrings.Count v sep = O.
Proof. rewrite Count_app. lia. Qed.

(** ** [mapVolumeIDToName] *)

(** X1: [mapVolumeIDToName] panics exactly on an identifier with fewer than
    four dots, and otherwise returns the fifth dot-separated segment,
    whether or not further segments follow it. *)
Theorem mapVolumeIDToName_fifth_segment :
  (forall volumeID,
     (GoStrings.Count volumeID "."%char < 4)%nat
     <-> exists msg, mapVolumeIDToName volumeID = Panic msg) /\
  (forall p0 p1 p2 p3 name,
     GoStrings.Count p0 "."%char = O -> GoStrings.Count p1 "."%char = O ->
     GoStrings.Count p2 "."%char = O -> GoStrings.Count p3 "."%char = O ->
     GoStrings.Count name "."%char = O ->
     mapVolumeIDToName
       (p0 +:+ String "."%char (p1 +:+ String "."%char (p2 +:+ String "."%char
          (p3 +:+ String "."%char name))))
     = Ok name /\
     forall rest,
       mapVolumeIDToName
         (p0 +:+ String "."%char (p1 +:+ String "."%char (p2 +:+ String "."%char
            (p3 +:+ String "."%char (name +:+ String "."%char rest)))))
       = Ok name).
Proof.
  split.
  - intros volumeID. unfold mapVolumeIDToName.
    pose proof (Split_length "."%char volumeID) as Hlen.
    destruct (GoStrings.Split volumeID "."%char !! 4%nat) as [name|] eqn:Hget.
    + apply lookup_lt_Some in Hget. split; [lia|]. by intros [msg [=]].
    + apply lookup_ge_None in Hget. split; [eauto|lia].
  - intros p0 p1 p2 p3 name H0 H1 H2 H3 Hname. unfold mapVolumeIDToName. split.
    + by rewrite !Split_app, (Split_no_sep _ name) by done.
    + intros rest. by rewrite !Split_app by done.
Qed.

Lemma mapVolumeIDToName_fifth_segment_witness :
  mapVolumeIDToName "ocid1.volume.oc1.phx.abcdefgh" = Ok "abcdefgh" /\
  (exists msg, mapVolumeIDToName "ocid1.volume.oc1" = Panic msg).
Proof.
  destruct mapVolumeIDToName_fifth_segment as [Hpanic Hname]. split.
  - apply (Hname "ocid1" "volume" "oc1" "phx" "abcdefgh"); reflexivity.
  - apply Hpanic. vm_compute. lia.
Defined.

(** ** More on [roundUpSize] *)

Lemma roundUpSize_nonneg b u :
  0 <= b -> 0 < u -> b + u - 1 <= Int64.max_int64 ->
  roundUpSize b u = Some ((b + u - 1) / u).
Proof.
  intros Hb Hu Hmax.
  destruct (Z.eq_dec b 0) as [->|Hne]; [|apply roundUpSize_no_overflow; lia].
  unfold roundUpSize, Int64.div, Int64.sub, Int64.add.
  destruct (Z.eqb_spec u 0) as [->|_]; [lia|].
  rewrite wrap64_sub_idemp.
  assert (Hr : forall z, 0 <= z <= Int64.max_int64 -> Int64.wrap64 z = z).
  { intros z Hz. apply wrap64_id. unfold Int64.in_range, Int64.min_int64.
    unfold Int64.max_int64 in *. lia. }
  rewrite (Hr (0 + u - 1)) by lia.
  rewrite Z.quot_div_nonneg by lia.
  rewrite Hr; [done|].
  rewrite Z.div_small by lia. unfold Int64.max_int64. lia.
Qed.

(** X2: on a whole number [k] of units, [roundUpSize] returns [k] itself;
    so a request of zero bytes is sized zero, and an exact multiple is not
    rounded to the next unit. *)
Theorem roundUpSize_exact_multiple (k u : Z) :
  0 <= k -> 0 < u -> k * u + u - 1 <= Int64.max_int64 ->
  roundUpSize (k * u) u = Some k.
Proof.
  intros Hk Hu Hmax. rewrite roundUpSize_nonneg by nia. f_equal.
  replace (k * u + u - 1) with (u - 1 + k * u) by lia.
  rewrite Z.div_add by lia. rewrite Z.div_small by lia. lia.
Qed.

Lemma roundUpSize_exact_multiple_witness :
  roundUpSize (50 * MiB) MiB = Some 50 /\ roundUpSize (0 * MiB) MiB = Some 0.
Proof.
  split; apply roundUpSize_exact_multiple;
    unfold MiB, Int64.max_int64; lia.
Defined.

(** X3: [roundUpSize] is monotone in the byte count: a larger request is
    never given fewer units, as long as neither sum overflows. *)
Theorem roundUpSize_monotone (b1 b2 u : Z) :
  0 <= b1 -> b1 <= b2 -> 0 < u -> b2 + u - 1 <= Int64.max_int64 ->
  exists q1 q2,
    roundUpSize b1 u = Some q1 /\ roundUpSize b2 u = Some q2 /\ q1 <= q2.
Proof.
  intros H1 H12 Hu Hmax. eexists _, _.
  split; [apply roundUpSize_nonneg; lia|].
  split; [apply roundUpSize_nonneg; lia|].
  apply Z.div_le_mono; lia.
Qed.

Lemma roundUpSize_monotone_witness :
  exists q1 q2,
    roundUpSize 1 MiB = Some q1 /\ roundUpSize (MiB + 1) MiB = Some q2 /\ q1 <= q2.
Proof.
  apply roundUpSize_monotone; unfold MiB, Int64.max_int64; lia.
Defined.

(** ** More on [parseTags] *)

Lemma parseTagList_app tags1 tags2 maps :
  parseTagList (tags1 ++ tags2) maps
  = (maps' ← parseTagList tags1 maps; parseTagList tags2 maps').
Proof.
  revert maps. induction tags1 as [|tag tags1 IH]; intros maps; [done|].
  cbn [app parseTagList]. destruct (parseTag tag maps) as [maps'| |]; [|done..].
  apply IH.
Qed.

Lemma parseTag_Ok_inv tag defined freeform defined' freeform' :
  parseTag tag (defined, freeform) = Ok (defined', freeform') ->
  exists key value,
    tag = key +:+ String "="%char value /\
    GoStrings.Count key "="%char = O /\ GoStrings.Count value "="%char = O /\
    ((GoStrings.Count key "."%char = O /\
      defined' = defined /\ freeform' = <[key := value]> freeform)
     \/ exists namespace k,
          key = namespace +:+ String "."%char k /\
          GoStrings.Count namespace "."%char = O /\
          GoStrings.Count k "."%char = O /\
          defined'
          = <[namespace := <[k := value]> (default ∅ (defined !! namespace))]>
              defined /\
          freeform' = freeform).
Proof.
  intros Hok. destruct (wellFormedTag tag) eqn:Hwf;
    [|by rewrite (parseTag_illFormed _ _ Hwf) in Hok].
  unfold wellFormedTag in Hwf. apply andb_prop in Hwf as [He Hd].
  apply Nat.eqb_eq in He. apply Nat.leb_le in Hd.
  destruct (Split_pair _ _ He) as (key & value & -> & _ & Hk & Hv).
  rewrite (tagKey_app _ _ Hk) in Hd. exists key, value.
  split; [done|]. split; [done|]. split; [done|].
  destruct (GoStrings.Count key "."%char) as [|n] eqn:Hn.
  - left. rewrite parseTag_freeform in Hok by done. by injection Hok as <- <-.
  - right. assert (n = O) as -> by lia.
    destruct (Split_pair _ _ Hn) as (ns & k & -> & _ & Hns & Hkk).
    rewrite parseTag_defined in Hok by done. injection Hok as <- <-.
    by exists ns, k.
Qed.

Lemma parseTagList_invariant (P : DefinedTags * FreeformTags -> Prop)
    (Q : string -> Prop) tags :
  (forall tag maps maps',
     Q tag -> P maps -> parseTag tag maps = Ok maps' -> P maps') ->
  Forall Q tags ->
  forall maps maps', P maps -> parseTagList tags maps = Ok maps' -> P maps'.
Proof.
  intros Hstep Hall. induction Hall as [|tag tags Htag _ IH];
    intros maps maps' HP Hrun; cbn [parseTagList] in Hrun.
  - by injection Hrun as <-.
  - destruct (parseTag tag maps) as [maps1| |] eqn:Htag1; [|done..].
    eapply IH; [|exact Hrun]. by eapply Hstep.
Qed.

Lemma parseTagList_some_illFormed tags maps :
  Exists (fun tag => wellFormedTag tag = false) tags ->
  exists bad, In bad tags /\ parseTagList tags maps = Err (tagFormatError bad).
Proof.
  intros Hex. revert maps.
  induction tags as [|tag tags IH]; intros maps; [by inversion Hex|].
  cbn [parseTagList]. destruct (wellFormedTag tag) eqn:Hwf.
  - destruct (parseTag_wellFormed tag maps Hwf) as [maps' ->].
    inversion Hex as [? ? Hhead|? ? Htail]; subst; [congruence|].
    destruct (IH Htail maps') as (bad & Hin & Hrun).
    exists bad. split; [by right|done].
  - exists tag. split; [by left|]. by rewrite (parseTag_illFormed _ _ Hwf).
Qed.

Lemma append_nonempty s c t : s +:+ String c t <> EmptyString.
Proof. by destruct s. Qed.

(** X4: a piece appended to a specification that parses is applied on top
    of the result: a free-form piece sets its key, a namespaced piece sets
    its key inside its namespace, and everything else of the earlier result
    stays; so of two pieces with one key the later one wins. *)
Theorem parseTags_append_piece tagStr defined freeform key value :
  tagStr <> EmptyString ->
  parseTags tagStr = Ok (defined, freeform) ->
  GoStrings.Count key "="%char = O -> GoStrings.Count key ","%char = O ->
  GoStrings.Count value "="%char = O -> GoStrings.Count value ","%char = O ->
  (GoStrings.Count key "."%char = O ->
   parseTags (tagStr +:+ String ","%char (key +:+ String "="%char value))
   = Ok (defined, <[key := value]> freeform)) /\
  (forall namespace k,
     key = namespace +:+ String "."%char k ->
     GoStrings.Count namespace "."%char = O -> GoStrings.Count k "."%char = O ->
     parseTags (tagStr +:+ String ","%char (key +:+ String "="%char value))
     = Ok (<[namespace := <[k := value]> (default ∅ (defined !! namespace))]>
             defined, freeform)).
Proof.
  intros Hne Hok Hke Hkc Hve Hvc.
  assert (Hstep :
    parseTags (tagStr +:+ String ","%char (key +:+ String "="%char value))
    = parseTag (key +:+ String "="%char value) (defined, freeform)).
  { rewrite parseTags_nonempty by apply append_nonempty.
    rewrite Split_app_pieces, parseTagList_app.
    rewrite <- (parseTags_nonempty _ Hne), Hok.
    rewrite (Split_no_sep _ (key +:+ String "="%char value));
      [|rewrite Count_app; simpl; lia].
    apply parseTagList_singleton. }
  rewrite Hstep. split.
  - intros Hd. by apply parseTag_freeform.
  - intros namespace k -> Hn Hd. by apply parseTag_defined.
Qed.

Lemma parseTags_append_piece_witness :
  parseTags "a=1,ns.x=9,a=2" = Ok ({[ "ns" := {[ "x" := "9" ]} ]}, {[ "a" := "2" ]}).
Proof.
  destruct (parseTags_append_piece "a=1,ns.x=9" {[ "ns" := {[ "x" := "9" ]} ]}
              {[ "a" := "1" ]} "a" "2") as [Hfree _];
    [discriminate | by vm_compute | reflexivity..|].
  etransitivity; [exact (Hfree eq_refl)|]. by vm_compute.
Defined.

(** X5: a non-empty specification with an empty piece is rejected; in
    particular one that ends in a comma, and one that starts with a comma,
    for which the offending piece is the empty one. *)
Theorem parseTags_empty_piece :
  (forall tagStr,
     tagStr <> EmptyString ->
     In EmptyString (GoStrings.Split tagStr ","%char) ->
     exists bad, parseTags tagStr = Err (tagFormatError bad)) /\
  (forall tagStr,
     exists bad,
       parseTags (tagStr +:+ String ","%char EmptyString)
       = Err (tagFormatError bad)) /\
  (forall tagStr,
     parseTags (String ","%char tagStr) = Err (tagFormatError EmptyString)).
Proof.
  assert (Hgen : forall tagStr,
    tagStr <> EmptyString ->
    In EmptyString (GoStrings.Split tagStr ","%char) ->
    exists bad, parseTags tagStr = Err (tagFormatError bad)).
  { intros tagStr Hne Hin. rewrite (parseTags_nonempty _ Hne).
    destruct (parseTagList_some_illFormed (GoStrings.Split tagStr ","%char) (∅, ∅))
      as (bad & _ & Hrun); [|eauto].
    apply Exists_exists. exists EmptyString.
    split; [by apply list_elem_of_In|done]. }
  split; [exact Hgen|]. split.
  - intros tagStr. apply Hgen; [apply append_nonempty|].
    rewrite Split_app_pieces. apply in_or_app. right. by left.
  - intros tagStr. rewrite parseTags_nonempty by done.
    change (String ","%char tagStr) with (EmptyString +:+ String ","%char tagStr).
    rewrite Split_app by done.
    by apply (parseTagList_first_illFormed []).
Qed.

Lemma parseTags_empty_piece_witness :
  exists bad, parseTags "a=1,,b=2" = Err (tagFormatError bad).
Proof.
  destruct parseTags_empty_piece as [Hgen _].
  apply Hgen; [discriminate|]. vm_compute. auto.
Defined.

Lemma parseTags_pieces tagStr maps :
  parseTags tagStr = Ok maps ->
  maps = (∅, ∅)
  \/ exists tags,
       Forall (fun tag => GoStrings.Count tag ","%char = O) tags /\
       parseTagList tags (∅, ∅) = Ok maps.
Proof.
  unfold parseTags. destruct (String.eqb tagStr EmptyString).
  - intros [= <-]. by left.
  - intros Hrun. right. eexists. split; [apply Split_pieces_no_sep|done].
Qed.

(** X6: no namespace of the defined tags that [parseTags] returns is
    empty, and the same holds for the merged defined tags of [getTags]. *)
Theorem defined_namespaces_inhabited :
  (forall tagStr defined freeform,
     parseTags tagStr = Ok (defined, freeform) -> namespacesInhabited defined) /\
  (forall env annotations defined freeform,
     getTags env annotations = Ok (defined, freeform) ->
     namespacesInhabited defined).
Proof.
  assert (Hparse : forall tagStr defined freeform,
    parseTags tagStr = Ok (defined, freeform) -> namespacesInhabited defined).
  { intros tagStr defined freeform Hok.
    apply parseTags_pieces in Hok as [[= -> ->]|(tags & Hall & Hrun)].
    { intros ns tags. by rewrite lookup_empty. }
    refine (parseTagList_invariant
              (fun maps => namespacesInhabited maps.1) (fun _ => True) tags
              _ _ (∅, ∅) (defined, freeform) _ Hrun).
    - intros tag [d f] [d' f'] _ Hinv Hstep.
      apply parseTag_Ok_inv in Hstep
        as (key & value & _ & _ & _ &
            [(_ & -> & _)|(ns & k & _ & _ & _ & -> & _)]); [done|].
      intros ns' tags'. simpl. rewrite lookup_insert.
      case_decide; [|by apply Hinv].
      intros [= <-]. apply insert_non_empty.
    - by apply Forall_true.
    - intros ns tags'. simpl. by rewrite lookup_empty. }
  split; [exact Hparse|].
  intros env annotations defined freeform. unfold getTags.
  destruct (parseTags (Getenv env defaultTagsEnvVar)) as [[dd df]| |] eqn:Hd;
    [|done..].
  destruct (parseTags (default EmptyString (annotations !! ociTagAnnotation)))
    as [[d f]| |] eqn:Ha; [|done..].
  cbn. intros [= <- _]. intros ns tags.
  rewrite mergeDefinedTags_lookup.
  destruct (d !! ns) as [t|] eqn:Hns.
  - intros [= <-]. apply map_positive_l_alt. by eapply Hparse.
  - by eapply Hparse.
Qed.

Lemma defined_namespaces_inhabited_witness :
  namespacesInhabited
    ({[ "ns" := {[ "a" := "1"; "b" := "2" ]}; "other" := {[ "c" := "3" ]} ]}
     : DefinedTags).
Proof.
  apply (proj1 defined_namespaces_inhabited "ns.a=1,ns.b=2,other.c=3" _ ∅).
  by vm_compute.
Defined.

(** X7: the keys and namespaces that [parseTags] returns hold none of the
    separators [.], [=] and [,], and the values hold neither [=] nor [,];
    in particular a free-form key is never mistaken for a namespaced one. *)
Theorem parseTags_separator_free tagStr defined freeform :
  parseTags tagStr = Ok (defined, freeform) ->
  (forall key value,
     freeform !! key = Some value -> separatorFree key /\ valueClean value) /\
  (forall namespace tags key value,
     defined !! namespace = Some tags -> tags !! key = Some value ->
     separatorFree namespace /\ separatorFree key /\ valueClean value).
Proof.
  intros Hok.
  apply parseTags_pieces in Hok as [[= -> ->]|(pieces & Hall & Hrun)].
  { split; [intros ? ?|intros ? ? ? ?]; by rewrite lookup_empty. }
  refine (parseTagList_invariant
           (fun maps =>
              (forall key value,
                 maps.2 !! key = Some value ->
                 separatorFree key /\ valueClean value) /\
              (forall namespace tags key value,
                 maps.1 !! namespace = Some tags -> tags !! key = Some value ->
                 separatorFree namespace /\ separatorFree key /\ valueClean value))
           (fun tag => GoStrings.Count tag ","%char = O) pieces
           _ Hall (∅, ∅) (defined, freeform) _ Hrun).
  - intros tag [d f] [d' f'] Hcomma [Hf Hd] Hstep. simpl in *.
    apply parseTag_Ok_inv in Hstep
      as (key & value & -> & Hke & Hve & Hcase).
    apply Count_app_zero in Hcomma as [Hkc Hvc]. simpl in Hvc.
    destruct Hcase as [(Hkd & -> & ->)|(ns & k & -> & Hnd & Hkd & -> & ->)].
    + split; [|done]. intros key' value'. rewrite lookup_insert.
      case_decide; [|by apply Hf]. intros [= <-]. by subst key'.
    + apply Count_app_zero in Hke as [Hne Hke]. simpl in Hke.
      apply Count_app_zero in Hkc as [Hnc Hkc]. simpl in Hkc.
      split; [done|]. intros ns' tags key' value'. rewrite lookup_insert.
      case_decide as Hns; [|by apply Hd]. subst ns'. intros [= <-].
      rewrite lookup_insert. case_decide as Hk.
      * intros [= <-]. by subst key'.
      * intros Hlook. destruct (d !! ns) as [t|] eqn:Hdns; simpl in Hlook.
        -- by apply (Hd ns t).
        -- by rewrite lookup_empty in Hlook.
  - split; [intros ? ?|intros ? ? ? ?]; simpl; by rewrite lookup_empty.
Qed.

Lemma parseTags_separator_free_witness :
  separatorFree "a" /\ valueClean "1".
Proof.
  destruct (parseTags_separator_free "a=1,ns.b=2"
              {[ "ns" := {[ "b" := "2" ]} ]} {[ "a" := "1" ]}) as [Hfree _];
    [by vm_compute|].
  apply Hfree. by vm_compute.
Defined.

Lemma mergeDefinedTags_empty_defaults (definedTags : DefinedTags) :
  mergeDefinedTags definedTags ∅ = definedTags.
Proof.
  apply map_eq. intros ns. rewrite mergeDefinedTags_lookup, lookup_empty.
  destruct (definedTags !! ns); simpl; [|done].
  by rewrite (right_id_L ∅ (∪)).
Qed.

(** X8: with one tag source empty the other is returned as parsed: without
    the tag annotation (or with an empty one) [getTags] gives the default
    tags, and without default tags it gives the tags of the annotation. *)
Theorem getTags_single_source env (annotations : gmap string string) :
  (forall dd df,
     parseTags (Getenv env defaultTagsEnvVar) = Ok (dd, df) ->
     default EmptyString (annotations !! ociTagAnnotation) = EmptyString ->
     getTags env annotations = Ok (dd, df)) /\
  (forall d f,
     Getenv env defaultTagsEnvVar = EmptyString ->
     parseTags (default EmptyString (annotations !! ociTagAnnotation)) = Ok (d, f) ->
     getTags env annotations = Ok (d, f)).
Proof.
  split.
  - intros dd df Hd Ha. rewrite (getTags_ok env annotations dd df ∅ ∅ Hd)
      by by rewrite Ha.
    unfold mergeDefinedTags, mergeFreeformTags. by rewrite !map_fold_empty.
  - intros d f Hd Ha. rewrite (getTags_ok env annotations ∅ ∅ d f)
      by (by rewrite ?Hd).
    by rewrite mergeDefinedTags_empty_defaults, mergeFreeformTags_union,
      (right_id_L ∅ (∪)).
Qed.

Lemma getTags_single_source_witness :
  getTags {[ defaultTagsEnvVar := "team=storage,ns.x=9" ]} ∅
  = Ok ({[ "ns" := {[ "x" := "9" ]} ]}, {[ "team" := "storage" ]}) /\
  getTags ∅ {[ ociTagAnnotation := "a=1" ]} = Ok (∅, {[ "a" := "1" ]}).
Proof.
  split.
  - apply (proj1 (getTags_single_source
                    {[ defaultTagsEnvVar := "team=storage,ns.x=9" ]} ∅));
      [by vm_compute|reflexivity].
  - apply (proj2 (getTags_single_source ∅ {[ ociTagAnnotation := "a=1" ]}));
      [reflexivity|by vm_compute].
Defined.

(** ** More on [Provision] and [Delete] *)

Section ProvisionerRuns.

Context {Quantity : Type} `{QuantityOps Quantity} `{PluginNames} `{UnicodeTables}.

Implicit Types (block : blockProvisioner Quantity)
  (options : VolumeOptions Quantity) (volume : PersistentVolume Quantity)
  (env : gmap string string) (tr : list CloudCall).

Lemma Provision_after_tags block env options ad tr capacity size
    definedTags freeformTags :
  checkAccessModes (AccessModes (PVC options)) = Ok tt ->
  Requests (PVC options) !! ResourceStorage = Some capacity ->
  getTags env (Annotations (PVC options)) = Ok (definedTags, freeformTags) ->
  roundUpSize (Value (billedCapacity block capacity)) MiB = Some size ->
  Provision block env options ad tr
  = afterRequest block env options ad (billedCapacity block capacity)
      (requestOf block env options ad size definedTags freeformTags) tr.
Proof.
  intros Hm Hc Ht Hsize. unfold Provision. run_cloud. rewrite Hm, Hc.
  destruct (roundUpSize_MiB_total (Value capacity)) as [size0 Hsize0].
  rewrite Hsize0. change (checked (Some size0)) with (Ok size0). cbn.
  destruct (billing_step block capacity size0 Hsize0) as (size' & -> & Hsize').
  rewrite Hsize in Hsize'. injection Hsize' as <-. rewrite Ht.
  replace (match Annotations (PVC options) !! ociVolumeBackupID with
           | Some value => _
           | None => _
           end)
    with (requestOf block env options ad size definedTags freeformTags)
    by (unfold requestOf; by destruct (Annotations (PVC options) !! ociVolumeBackupID)).
  unfold afterRequest, descriptorOf.
  destruct (CreateVolume (client block) tr _) as [newVolume [e|]]; [done|].
  destruct (LookupEnv env "OCI_SHORT_REGION") as [region|]; [done|].
  by destruct (Get (metadata block) _) as [md [e|]].
Qed.

(** A run either stops before the request is sent or continues as
    [afterRequest] says. *)
Lemma Provision_run_inv block env options ad tr res tr' :
  Provision block env options ad tr = (res, tr') ->
  (tr' = tr /\ exists e, res = Err e)
  \/ exists capacity size definedTags freeformTags,
       checkAccessModes (AccessModes (PVC options)) = Ok tt /\
       Requests (PVC options) !! ResourceStorage = Some capacity /\
       roundUpSize (Value (billedCapacity block capacity)) MiB = Some size /\
       getTags env (Annotations (PVC options)) = Ok (definedTags, freeformTags) /\
       afterRequest block env options ad (billedCapacity block capacity)
         (requestOf block env options ad size definedTags freeformTags) tr
       = (res, tr').
Proof.
  intros Hrun. destruct (Provision_inv _ _ _ _ _ _ _ Hrun)
    as [Hstop|(capacity & size & d & f & Hm & Hc & Hsize & Ht & _)]; [by left|].
  right. exists capacity, size, d, f. repeat (split; [done|]).
  by rewrite <- (Provision_after_tags _ _ _ _ _ _ _ _ _ Hm Hc Ht Hsize).
Qed.

(** The shapes of the calls that [afterRequest] adds. *)
Lemma afterRequest_cases block env options ad capacity details tr res tr' :
  afterRequest block env options ad capacity details tr = (res, tr') ->
  let answer := CreateVolume (client block) tr details in
  let tr1 := tr ++ [CreateVolumeCall details] in
  (exists e, answer.2 = Some e /\ res = Err e /\ tr' = tr1)
  \/ (answer.2 = None /\
      ((exists region,
          LookupEnv env "OCI_SHORT_REGION" = Some region /\
          res = Ok (descriptorOf options ad capacity answer.1 region) /\
          tr' = tr1)
       \/ (LookupEnv env "OCI_SHORT_REGION" = None /\
           tr' = tr1 ++ [MetadataGetCall] /\
           ((exists e, (Get (metadata block) tr1).2 = Some e /\ res = Err e)
            \/ ((Get (metadata block) tr1).2 = None /\
                res = Ok (descriptorOf options ad capacity answer.1
                            (Region (Get (metadata block) tr1).1))))))).
Proof.
  unfold afterRequest. cbn zeta.
  destruct (CreateVolume (client block) tr details) as [newVolume [e|]]; simpl.
  { intros [= <- <-]. left. eauto. }
  destruct (LookupEnv env "OCI_SHORT_REGION") as [region|].
  { intros [= <- <-]. right. split; [done|]. left. eauto. }
  destruct (Get (metadata block) (tr ++ [CreateVolumeCall details]))
    as [md [e|]]; simpl; intros [= <- <-];
    right; (split; [done|]); right; (split; [done|]); (split; [done|]); eauto.
Qed.

(** The create-volume call found in the trace of a run is the request of
    that run. *)
Lemma Provision_request block env options ad res calls details :
  Provision block env options ad [] = (res, calls) ->
  In (CreateVolumeCall details) calls ->
  exists capacity size definedTags freeformTags,
    checkAccessModes (AccessModes (PVC options)) = Ok tt /\
    Requests (PVC options) !! ResourceStorage = Some capacity /\
    roundUpSize (Value (billedCapacity block capacity)) MiB = Some size /\
    getTags env (Annotations (PVC options)) = Ok (definedTags, freeformTags) /\
    details = requestOf block env options ad size definedTags freeformTags /\
    afterRequest block env options ad (billedCapacity block capacity) details []
    = (res, calls).
Proof.
  intros Hrun Hin. apply Provision_run_inv in Hrun
    as [[-> _]|(capacity & size & d & f & Hm & Hc & Hsize & Ht & Hafter)];
    [done|].
  exists capacity, size, d, f. repeat (split; [done|]).
  assert (details = requestOf block env options ad size d f) as ->; [|done].
  pose proof (afterRequest_cases _ _ _ _ _ _ _ _ _ Hafter) as Hcases.
  cbn zeta in Hcases. simpl in Hcases.
  destruct Hcases as [(e & _ & _ & ->)|[_ [(region & _ & _ & ->)|(_ & -> & _)]]];
    simpl in Hin; destruct Hin as [[= <-]|Hin]; try done;
    by destruct Hin.
Qed.

(** X9: the create-volume request of a run names the availability domain
    given to [Provision] and the compartment of the client, carries the
    merged tags of [getTags], and names a backup as its source exactly when
    the claim has the backup annotation. *)
Theorem Provision_request_fields block env options ad res calls details :
  Provision block env options ad [] = (res, calls) ->
  In (CreateVolumeCall details) calls ->
  AvailabilityDomain details = ad_Name ad /\
  CompartmentId details = CompartmentOCID (client block) /\
  SourceDetails details = Annotations (PVC options) !! ociVolumeBackupID /\
  getTags env (Annotations (PVC options))
  = Ok (DefinedTagsOf details, FreeformTagsOf details).
Proof.
  intros Hrun Hin.
  destruct (Provision_request _ _ _ _ _ _ _ Hrun Hin)
    as (capacity & size & d & f & _ & _ & _ & Ht & -> & _).
  by rewrite Ht.
Qed.

(** X10: a run of [Provision] only adds calls to the trace; it makes at
    most one create-volume call and no delete-volume call, and it returns a
    descriptor only after exactly one create-volume call. *)
Theorem Provision_call_discipline block env options ad tr res tr' :
  Provision block env options ad tr = (res, tr') ->
  exists new,
    tr' = tr ++ new /\
    (length (createCalls new) <= 1)%nat /\
    (forall volumeId, ~ In (DeleteVolumeCall volumeId) new) /\
    (forall pv, res = Ok pv -> length (createCalls new) = 1%nat).
Proof.
  intros Hrun. apply Provision_run_inv in Hrun
    as [[-> [e ->]]|(capacity & size & d & f & _ & _ & _ & _ & Hafter)].
  { exists []. rewrite app_nil_r. split; [done|]. split; [simpl; lia|].
    split; [by intros ? []|done]. }
  pose proof (afterRequest_cases _ _ _ _ _ _ _ _ _ Hafter) as Hcases.
  cbn zeta in Hcases.
  destruct Hcases as [(e & _ & _ & ->)|[_ [(region & _ & _ & ->)|(_ & -> & _)]]].
  - eexists [_]. split; [done|]. split; [simpl; lia|].
    split; [|done]. intros id [[=]|[]].
  - eexists [_]. split; [done|]. split; [simpl; lia|].
    split; [|done]. intros id [[=]|[]].
  - eexists [_; _]. rewrite <- app_assoc. split; [done|]. split; [simpl; lia|].
    split; [|done]. intros id [[=]|[[=]|[]]].
Qed.

(** X11: when the create-volume call of a run answers with an error, the
    run returns that very error and no descriptor, and makes no further
    call. *)
Theorem Provision_create_error block env options ad res calls details e :
  Provision block env options ad [] = (res, calls) ->
  In (CreateVolumeCall details) calls ->
  (CreateVolume (client block) [] details).2 = Some e ->
  res = Err e /\ calls = [CreateVolumeCall details].
Proof.
  intros Hrun Hin Herr.
  destruct (Provision_request _ _ _ _ _ _ _ Hrun Hin)
    as (capacity & size & d & f & _ & _ & _ & _ & _ & Hafter).
  apply afterRequest_cases in Hafter. cbn zeta in Hafter.
  destruct Hafter as [(e' & He' & -> & ->)|[Hnone _]]; [|congruence].
  rewrite Herr in He'. by injection He' as <-.
Qed.

(** X12: when [OCI_SHORT_REGION] is set, even to the empty string, the
    metadata service is not queried and the region label of the descriptor
    is the value of the variable; when it is not set, a descriptor is
    returned only after one metadata query, and its region label is the
    region the service answered. *)
Theorem Provision_region block env options ad res calls :
  Provision block env options ad [] = (res, calls) ->
  LabelZoneRegion <> LabelZoneFailureDomain ->
  (forall region,
     LookupEnv env "OCI_SHORT_REGION" = Some region ->
     ~ In MetadataGetCall calls /\
     forall pv, res = Ok pv -> pv_Labels pv !! LabelZoneRegion = Some region) /\
  (LookupEnv env "OCI_SHORT_REGION" = None ->
   forall pv, res = Ok pv ->
     exists details,
       calls = [CreateVolumeCall details; MetadataGetCall] /\
       pv_Labels pv !! LabelZoneRegion
       = Some (Region (Get (metadata block) [CreateVolumeCall details]).1)).
Proof.
  intros Hrun Hlabels.
  apply Provision_run_inv in Hrun
    as [[-> [e ->]]|(capacity & size & d & f & _ & _ & _ & _ & Hafter)].
  { split; [|done]. intros region _. split; [by intros []|done]. }
  apply afterRequest_cases in Hafter. cbn zeta in Hafter. simpl in Hafter.
  split.
  - intros region Hregion. rewrite Hregion in Hafter.
    destruct Hafter as [(e & _ & -> & ->)|[_ [(r & [= <-] & -> & ->)|([=] & _)]]].
    + split; [|done]. by intros [[=]|[]].
    + split; [by intros [[=]|[]]|]. intros pv [= <-]. simpl.
      rewrite lookup_insert_ne by done. apply lookup_insert_eq.
  - intros Hregion pv ->. rewrite Hregion in Hafter.
    destruct Hafter as [(e & _ & [=] & _)|[_ [(r & [=] & _)|(_ & -> & Hget)]]].
    destruct Hget as [(e & _ & [=])|(_ & [= ->])].
    eexists. split; [done|]. simpl.
    rewrite lookup_insert_ne by done. apply lookup_insert_eq.
Qed.

(** X13: when the region must come from the metadata service and the
    service fails, [Provision] returns the error of the service and no
    descriptor although the volume has been created: the successful
    create-volume call stays in the trace and no delete-volume call
    follows. *)
Theorem Provision_metadata_error block env options ad res calls details e :
  Provision block env options ad [] = (res, calls) ->
  In (CreateVolumeCall details) calls ->
  (CreateVolume (client block) [] details).2 = None ->
  LookupEnv env "OCI_SHORT_REGION" = None ->
  (Get (metadata block) [CreateVolumeCall details]).2 = Some e ->
  res = Err e /\ calls = [CreateVolumeCall details; MetadataGetCall].
Proof.
  intros Hrun Hin Hcreate Hregion Hget.
  destruct (Provision_request _ _ _ _ _ _ _ Hrun Hin)
    as (capacity & size & d & f & _ & _ & _ & _ & _ & Hafter).
  apply afterRequest_cases in Hafter. cbn zeta in Hafter. simpl in Hafter.
  rewrite Hregion in Hafter.
  destruct Hafter as [(e' & He' & _)|[_ [(r & [=] & _)|(_ & -> & Hmd)]]];
    [congruence|].
  split; [|done].
  destruct Hmd as [(e' & He' & ->)|[Hnone _]]; congruence.
Qed.

(** X14: a descriptor that [Provision] returns is named after the volume
    that the create-volume call answered and carries that identifier in its
    [ociVolumeID] annotation; it repeats the reclaim policy and the access
    modes of the request, which are all [ReadWriteOnce]; its driver is the
    provisioner's name and its file system is the [fsType] parameter when
    there is one, also when it is empty, and [ext4] otherwise; its
    failure-domain label is the name of the availability domain. *)
Theorem Provision_descriptor block env options ad pv calls :
  Provision block env options ad [] = (Ok pv, calls) ->
  exists details,
    In (CreateVolumeCall details) calls /\
    pv_Name pv = Volume_Id (CreateVolume (client block) [] details).1 /\
    pv_Annotations pv
    = {[ ociVolumeID := Volume_Id (CreateVolume (client block) [] details).1 ]} /\
    pv_ReclaimPolicy pv = PersistentVolumeReclaimPolicy options /\
    pv_AccessModes pv = AccessModes (PVC options) /\
    Forall (fun m => m = ReadWriteOnce) (pv_AccessModes pv) /\
    Driver (pv_FlexVolume pv) = OCIProvisionerName /\
    FSType (pv_FlexVolume pv) = default "ext4" (Parameters options !! fsType) /\
    pv_Labels pv !! LabelZoneFailureDomain = Some (ad_Name ad).
Proof.
  intros Hrun. apply Provision_run_inv in Hrun
    as [[_ [e [=]]]|(capacity & size & d & f & Hm & _ & _ & _ & Hafter)].
  assert (Hmodes : Forall (fun m => m = ReadWriteOnce) (AccessModes (PVC options))).
  { destruct (checkAccessModes_cases (AccessModes (PVC options)))
      as [[_ Hall]|(m & _ & _ & Herr)]; [done|congruence]. }
  exists (requestOf block env options ad size d f).
  apply afterRequest_cases in Hafter. cbn zeta in Hafter. simpl in Hafter.
  assert (Hshape : exists region,
    pv = descriptorOf options ad (billedCapacity block capacity)
           (CreateVolume (client block) []
              (requestOf block env options ad size d f)).1 region
    /\ In (CreateVolumeCall (requestOf block env options ad size d f)) calls).
  { destruct Hafter as [(e & _ & [=] & _)|[_ [(r & _ & [= ->] & ->)|(_ & -> & Hget)]]].
    - eexists. split; [done|]. by left.
    - destruct Hget as [(e & _ & [=])|(_ & [= ->])].
      eexists. split; [done|]. by left. }
  clear Hafter. destruct Hshape as (region & -> & Hin). split; [done|]. simpl.
  repeat (split; [done|]). apply lookup_insert_eq.
Qed.

(** X15: a descriptor that [Provision] returns can be given back to
    [Delete]: whatever provisioner deletes it, [Delete] finds the identifier
    and makes exactly one call, the delete-volume call for the volume that
    the create-volume call answered. *)
Theorem Provision_then_Delete block env options ad pv calls :
  Provision block env options ad [] = (Ok pv, calls) ->
  exists details,
    In (CreateVolumeCall details) calls /\
    forall block' tr,
      (Delete block' pv tr).2
      = tr ++ [DeleteVolumeCall
                 (Volume_Id (CreateVolume (client block) [] details).1)].
Proof.
  intros Hrun. apply Provision_run_inv in Hrun
    as [[_ [e [=]]]|(capacity & size & d & f & _ & _ & _ & _ & Hafter)].
  exists (requestOf block env options ad size d f).
  apply afterRequest_cases in Hafter. cbn zeta in Hafter. simpl in Hafter.
  assert (Hshape :
    pv_Annotations pv
    = {[ ociVolumeID :=
           Volume_Id (CreateVolume (client block) []
                        (requestOf block env options ad size d f)).1 ]}
    /\ In (CreateVolumeCall (requestOf block env options ad size d f)) calls).
  { destruct Hafter as [(e & _ & [=] & _)|[_ [(r & _ & [= ->] & ->)|(_ & -> & Hget)]]].
    - split; [done|]. by left.
    - destruct Hget as [(e & _ & [=])|(_ & [= ->])]. split; [done|]. by left. }
  destruct Hshape as [Hann Hin]. split; [done|].
  intros block' tr. unfold Delete. rewrite Hann, lookup_singleton_eq. run_cloud.
  destruct (DeleteVolume (client block') tr _) as [response [e|]];
    destruct (RawResponse response) as [raw|]; simpl;
    try destruct (StatusCode raw =? StatusNotFound); done.
Qed.

Lemma checkAccessModes_first good bad rest :
  Forall (fun m => m = ReadWriteOnce) good -> bad <> ReadWriteOnce ->
  checkAccessModes (good ++ bad :: rest) = Err (accessModeError bad).
Proof.
  intros Hgood Hbad. induction Hgood as [|m good -> _ IH]; simpl.
  - by destruct (String.eqb_spec bad ReadWriteOnce).
  - exact IH.
Qed.

(** X16: the access modes are checked in order and the error names the
    first mode that is not [ReadWriteOnce], whatever follows it; the trace
    is left as it was. *)
Theorem Provision_first_bad_mode block env options ad tr good bad rest :
  AccessModes (PVC options) = good ++ bad :: rest ->
  Forall (fun m => m = ReadWriteOnce) good -> bad <> ReadWriteOnce ->
  Provision block env options ad tr = (Err (accessModeError bad), tr) /\
  errorMessage (accessModeError bad)
  = "invalid access mode " +:+ bad +:+
    " specified. Only ReadWriteOnce is supported".
Proof.
  intros Hmodes Hgood Hbad. split; [|done].
  apply Provision_access_error. rewrite Hmodes.
  by apply checkAccessModes_first.
Qed.

(** X17: for a billable capacity of at most [2^63 - 2^20] bytes, the size
    asked of the cloud covers it and exceeds it by less than one unit. *)
Theorem Provision_size_covers_capacity block env options ad capacity res
    calls details :
  Requests (PVC options) !! ResourceStorage = Some capacity ->
  Provision block env options ad [] = (res, calls) ->
  In (CreateVolumeCall details) calls ->
  0 <= Value (billedCapacity block capacity) ->
  Value (billedCapacity block capacity) + MiB - 1 <= Int64.max_int64 ->
  Value (billedCapacity block capacity) <= SizeInMBs details * MiB
  /\ SizeInMBs details * MiB < Value (billedCapacity block capacity) + MiB.
Proof.
  intros Hcap Hrun Hin Hpos Hmax.
  destruct (Provision_request _ _ _ _ _ _ _ Hrun Hin)
    as (capacity' & size & d & f & _ & Hcap' & Hsize & _ & -> & _).
  rewrite Hcap in Hcap'. injection Hcap' as <-. simpl.
  rewrite roundUpSize_nonneg in Hsize by (unfold MiB in *; lia).
  injection Hsize as <-.
  set (b := Value (billedCapacity block capacity)) in *.
  pose proof (Z.div_mod (b + MiB - 1) MiB ltac:(unfold MiB; lia)) as Hdm.
  pose proof (Z.mod_pos_bound (b + MiB - 1) MiB ltac:(unfold MiB; lia)) as Hmod.
  lia.
Qed.

End ProvisionerRuns.

Section DeleteRuns.

Context {Quantity : Type}.

Implicit Types (block : blockProvisioner Quantity)
  (volume : PersistentVolume Quantity) (tr : list CloudCall).

Lemma Delete_run block volume tr volID :
  pv_Annotations volume !! ociVolumeID = Some volID ->
  Delete block volume tr
  = (let '(response, err) := DeleteVolume (client block) tr volID in
     match RawResponse response with
     | Some raw =>
         if StatusCode raw =? StatusNotFound then Ok tt
         else match err with Some e => Err e | None => Ok tt end
     | None => match err with Some e => Err e | None => Ok tt end
     end,
     tr ++ [DeleteVolumeCall volID]).
Proof.
  intros Hid. unfold Delete. rewrite Hid. run_cloud.
  destruct (DeleteVolume (client block) tr volID) as [response [e|]];
    destruct (RawResponse response) as [raw|]; simpl;
    try destruct (StatusCode raw =? StatusNotFound); done.
Qed.

(** X18: deleting a volume twice in a row succeeds both times when the
    first delete-volume call answers without error and the second one
    answers "not found", whatever error comes with that answer; each
    [Delete] makes one delete-volume call for the identifier of the
    descriptor. *)
Theorem Delete_twice block volume tr volID response1 response2 err2 :
  pv_Annotations volume !! ociVolumeID = Some volID ->
  DeleteVolume (client block) tr volID = (response1, None) ->
  DeleteVolume (client block) (tr ++ [DeleteVolumeCall volID]) volID
  = (response2, err2) ->
  (exists raw, RawResponse response2 = Some raw /\
               StatusCode raw = StatusNotFound) ->
  Delete block volume tr = (Ok tt, tr ++ [DeleteVolumeCall volID]) /\
  Delete block volume (tr ++ [DeleteVolumeCall volID])
  = (Ok tt, tr ++ [DeleteVolumeCall volID; DeleteVolumeCall volID]).
Proof.
  intros Hid Hfirst Hsecond (raw & Hraw & Hstatus).
  rewrite !(Delete_run _ _ _ _ Hid), Hfirst, Hsecond, Hraw, Hstatus.
  rewrite <- app_assoc. split; [|done].
  destruct (RawResponse response1) as [raw1|]; [|done].
  by destruct (StatusCode raw1 =? StatusNotFound).
Qed.

End DeleteRuns.

(** ** The further properties at the sample deployment *)

Section MoreSampleRuns.

Import ByteQuantity Sample.

Lemma Provision_request_fields_witness :
  exists details,
    AvailabilityDomain details = "AD-1" /\
    CompartmentId details = "ocid1.compartment.oc1..sample" /\
    SourceDetails details = Some "ocid1.volumebackup.oc1.phx.sample" /\
    FreeformTagsOf details = {[ "team" := "storage"; "a" := "1" ]}.
Proof.
  edestruct (Provision_request_fields (provisioner okClient true)
               {[ defaultTagsEnvVar := "team=storage" ]}
               (claim "pvc1"
                  {[ ociTagAnnotation := "a=1";
                     ociVolumeBackupID := "ocid1.volumebackup.oc1.phx.sample" ]}
                  [ReadWriteOnce] {[ ResourceStorage := 10 * GiB ]}) ad1)
    as (Had & Hcomp & Hsrc & Htags); [by vm_compute | by left |].
  eexists. split; [exact Had|]. split; [exact Hcomp|].
  split; [exact Hsrc|]. by vm_compute.
Defined.

Lemma Provision_call_discipline_witness :
  exists res calls new,
    Provision (provisioner okClient true) ∅
      (claim "pvc1" ∅ [ReadWriteOnce] {[ ResourceStorage := 10 * GiB ]}) ad1 []
    = (res, calls) /\
    calls = [] ++ new /\ length (createCalls new) = 1%nat.
Proof.
  eexists _, _. 
  edestruct (Provision_call_discipline (provisioner okClient true) ∅
               (claim "pvc1" ∅ [ReadWriteOnce] {[ ResourceStorage := 10 * GiB ]})
               ad1 []) as (new & Htr & _ & _ & Hone); [by vm_compute|].
  exists new. split; [by vm_compute|]. split; [exact Htr|]. by eapply Hone.
Defined.

Lemma Provision_create_error_witness :
  exists res calls details,
    Provision (provisioner goneClient true) ∅
      (claim "pvc1" ∅ [ReadWriteOnce] {[ ResourceStorage := 10 * GiB ]}) ad1 []
    = (res, calls) /\
    res = Err (collaboratorError "unreachable") /\
    calls = [CreateVolumeCall details].
Proof.
  eexists _, _, _. split; [by vm_compute|].
  eapply (Provision_create_error (provisioner goneClient true) ∅
            (claim "pvc1" ∅ [ReadWriteOnce] {[ ResourceStorage := 10 * GiB ]}) ad1);
    [by vm_compute | by left | by vm_compute].
Defined.

Lemma Provision_region_witness :
  exists pv calls,
    Provision (provisioner okClient true) {[ "OCI_SHORT_REGION" := "iad" ]}
      (claim "pvc1" ∅ [ReadWriteOnce] {[ ResourceStorage := 10 * GiB ]}) ad1 []
    = (Ok pv, calls) /\
    ~ In MetadataGetCall calls /\
    pv_Labels pv !! LabelZoneRegion = Some "iad".
Proof.
  eexists _, _. split; [by vm_compute|].
  edestruct (Provision_region (provisioner okClient true)
               {[ "OCI_SHORT_REGION" := "iad" ]}
               (claim "pvc1" ∅ [ReadWriteOnce] {[ ResourceStorage := 10 * GiB ]})
               ad1) as [Hset _]; [by vm_compute | discriminate |].
  destruct (Hset "iad") as [Hno Hlabel]; [by vm_compute|].
  split; [exact Hno|]. by apply Hlabel.
Defined.

Lemma Provision_metadata_error_witness :
  exists res calls details,
    Provision strandedProvisioner ∅
      (claim "pvc1" ∅ [ReadWriteOnce] {[ ResourceStorage := 10 * GiB ]}) ad1 []
    = (res, calls) /\
    res = Err (collaboratorError "metadata unavailable") /\
    calls = [CreateVolumeCall details; MetadataGetCall].
Proof.
  eexists _, _, _. split; [by vm_compute|].
  eapply (Provision_metadata_error strandedProvisioner ∅
            (claim "pvc1" ∅ [ReadWriteOnce] {[ ResourceStorage := 10 * GiB ]}) ad1);
    [by vm_compute | by left | by vm_compute | by vm_compute | by vm_compute].
Defined.

Lemma Provision_descriptor_witness :
  exists pv calls,
    Provision (provisioner okClient true) ∅
      (claim "pvc1" ∅ [ReadWriteOnce] {[ ResourceStorage := 10 * GiB ]}) ad1 []
    = (Ok pv, calls) /\
    pv_Name pv = "ocid1.volume.oc1.phx.sample" /\
    FSType (pv_FlexVolume pv) = "ext4" /\
    pv_Labels pv !! LabelZoneFailureDomain = Some "AD-1".
Proof.
  eexists _, _. split; [by vm_compute|].
  edestruct (Provision_descriptor (provisioner okClient true) ∅
               (claim "pvc1" ∅ [ReadWriteOnce] {[ ResourceStorage := 10 * GiB ]})
               ad1)
    as (details & _ & Hname & _ & _ & _ & _ & _ & Hfs & Hlabel); [by vm_compute|].
  split; [exact Hname|]. split; [exact Hfs|exact Hlabel].
Defined.

Lemma Provision_then_Delete_witness :
  exists pv calls,
    Provision (provisioner okClient true) ∅
      (claim "pvc1" ∅ [ReadWriteOnce] {[ ResourceStorage := 10 * GiB ]}) ad1 []
    = (Ok pv, calls) /\
    (Delete (provisioner goneClient false) pv calls).2
    = calls ++ [DeleteVolumeCall "ocid1.volume.oc1.phx.sample"].
Proof.
  eexists _, _. split; [by vm_compute|].
  edestruct (Provision_then_Delete (provisioner okClient true) ∅
               (claim "pvc1" ∅ [ReadWriteOnce] {[ ResourceStorage := 10 * GiB ]})
               ad1)
    as (details & _ & Hdelete); [by vm_compute|].
  apply Hdelete.
Defined.

Lemma Provision_first_bad_mode_witness :
  Provision (provisioner okClient true) ∅
    (claim "pvc1" ∅ [ReadWriteOnce; "ReadOnlyMany"; "ReadWriteMany"]
       {[ ResourceStorage := 10 * GiB ]}) ad1 []
  = (Err (accessModeError "ReadOnlyMany"), []).
Proof.
  apply (Provision_first_bad_mode (provisioner okClient true) ∅
           (claim "pvc1" ∅ [ReadWriteOnce; "ReadOnlyMany"; "ReadWriteMany"]
              {[ ResourceStorage := 10 * GiB ]}) ad1 []
           [ReadWriteOnce] "ReadOnlyMany" ["ReadWriteMany"]);
    [reflexivity | by repeat constructor | discriminate].
Defined.

Lemma Provision_size_covers_capacity_witness :
  exists details,
    10 * GiB + 1 <= SizeInMBs details * MiB /\
    SizeInMBs details * MiB < 10 * GiB + 1 + MiB.
Proof.
  edestruct (Provision_size_covers_capacity (provisioner okClient false) ∅
               (claim "pvc1" ∅ [ReadWriteOnce] {[ ResourceStorage := 10 * GiB + 1 ]})
               ad1 (10 * GiB + 1))
    as [Hlow Hhigh];
    [by vm_compute | by vm_compute | by left | by vm_compute | by vm_compute |].
  eexists. split; [exact Hlow|exact Hhigh].
Defined.

Lemma Delete_twice_witness :
  Delete (provisioner forgetfulClient false)
    (volume {[ ociVolumeID := "ocid1.volume.oc1.phx.sample" ]}) []
  = (Ok tt, [DeleteVolumeCall "ocid1.volume.oc1.phx.sample"]) /\
  Delete (provisioner forgetfulClient false)
    (volume {[ ociVolumeID := "ocid1.volume.oc1.phx.sample" ]})
    [DeleteVolumeCall "ocid1.volume.oc1.phx.sample"]
  = (Ok tt, [DeleteVolumeCall "ocid1.volume.oc1.phx.sample";
             DeleteVolumeCall "ocid1.volume.oc1.phx.sample"]).
Proof.
  eapply (Delete_twice (provisioner forgetfulClient false)
            (volume {[ ociVolumeID := "ocid1.volume.oc1.phx.sample" ]}) []);
    [reflexivity | reflexivity | reflexivity |].
  eexists. split; reflexivity.
Defined.

End MoreSampleRuns.
